(** * MTP::internal::HttpConnection

    A shallow embedding of [Telegram/SourceFiles/mtproto/connection_http.cpp]:
    the HTTP transport of the MTProto connection layer.

    Conventions of the embedding.
    - [mtpPrime] is a 32-bit signed integer, carried as a [Z]; narrowing
      conversions are written out with [to_int32] and [to_int64].
    - [mtpBuffer] (a [QVector<mtpPrime>]) is a [list Z]; a [QByteArray] is a
      [list byte].  [memcpy] between the two uses the little-endian layout of
      the platforms the client is built for.
    - [_requests] (a set of [QNetworkReply*]) is a [gset] of handles.
    - Everything a method does to the outside (posting a request, aborting a
      reply, emitting a signal) is recorded, in order, in a list of [Event]s
      returned next to the new state.  Log output ([LOG], [TCP_LOG],
      [DEBUG_LOG]) is not recorded, except that [handleError] returns the log
      class chosen by its [switch] next to the error code. *)

From Stdlib Require Import ZArith List Lia Ascii String.
From Stdlib Require Import Init.Byte Strings.Byte.
From stdpp Require Import base decidable numbers list strings gmap pretty.

Local Open Scope Z_scope.

(** ** Machine integers *)

(** Conversion to a signed integer of [w] bits ([w > 0]): the value modulo
    [2^w], taken in [-2^(w-1) .. 2^(w-1) - 1]. *)
Definition to_signed (w : Z) (z : Z) : Z :=
  (z + 2 ^ (w - 1)) mod 2 ^ w - 2 ^ (w - 1).

Definition to_int32 : Z -> Z := to_signed 32.
Definition to_int64 : Z -> Z := to_signed 64.

(** Conversion to [size_t] (64 bits, unsigned). *)
Definition to_size_t (z : Z) : Z := z mod 2 ^ 64.

(** [sizeof(mtpPrime)] *)
Definition sizeof_mtpPrime : Z := 4.

(** ** Bytes and words *)

Definition mtpPrime := Z.
Definition mtpBuffer := list mtpPrime.
Definition QByteArray := list byte.

Definition byte_to_Z (b : byte) : Z := Z.of_N (Byte.to_N b).

Definition byte_of_Z (z : Z) : byte :=
  match Byte.of_N (Z.to_N (z mod 256)) with
  | Some b => b
  | None => x00
  end.

(** The [int32] stored in four consecutive bytes of memory. *)
Definition word_of_bytes (b0 b1 b2 b3 : byte) : mtpPrime :=
  to_int32 (byte_to_Z b0 + 2 ^ 8 * byte_to_Z b1
            + 2 ^ 16 * byte_to_Z b2 + 2 ^ 24 * byte_to_Z b3).

(** The four bytes of memory an [int32] occupies. *)
Definition bytes_of_word (w : mtpPrime) : QByteArray :=
  [byte_of_Z w; byte_of_Z (w ≫ 8); byte_of_Z (w ≫ 16); byte_of_Z (w ≫ 24)].

(** The memory image of a buffer: [buffer.size() * sizeof(mtpPrime)] bytes. *)
Definition bytes_of_buffer (buffer : mtpBuffer) : QByteArray :=
  flat_map bytes_of_word buffer.

(** [mtpBuffer data(n); memcpy(data.data(), bytes, ...)]: [n] words, zero
    where [bytes] ends before the word does. *)
Fixpoint load_words (n : nat) (bytes : QByteArray) : mtpBuffer :=
  match n with
  | O => []
  | S k =>
      word_of_bytes (nth 0 bytes x00) (nth 1 bytes x00)
                    (nth 2 bytes x00) (nth 3 bytes x00)
      :: load_words k (drop 4 bytes)
  end.

(** [QByteArray::size()], an [int]. *)
Definition qsize {A} (l : list A) : Z := Z.of_nat (length l).

(** ** handleResponse *)

(** The array [reply->readAll()] returned is the argument. *)
Definition handleResponse (response : QByteArray) : mtpBuffer :=
  if bool_decide (response = []) then []
  else if negb (Z.land (qsize response) 3 =? 0) || (qsize response <? 8)
  then [-500]
  else load_words (Z.to_nat (qsize response ≫ 2)) response.

(** ** QString::arg

    [QString::arg] replaces the place markers [%N] and [%LN] ([N] of one or
    two digits) that carry the lowest number occurring in the string, and
    leaves the string as it is when it holds no marker.  Strings are modelled
    as ASCII text, whose digits are the characters [0] to [9]; the locale
    variant [%LN] of a number is printed like the plain one. *)

(** [QChar::digitValue()], [None] for its [-1]. *)
Definition digitValue (c : ascii) : option nat :=
  let n := nat_of_ascii c in
  if ((48 <=? n) && (n <=? 57))%nat then Some (n - 48)%nat else None.

(** The digits of a place marker: one digit, and a second one when the next
    character is a digit too.  Returns the number and how many characters
    were read, on top of the [read] already taken. *)
Definition escape_digits (read : nat) (s : string) : option (nat * nat) :=
  match s with
  | String d1 r1 =>
      match digitValue d1 with
      | Some n1 =>
          match r1 with
          | String d2 _ =>
              match digitValue d2 with
              | Some n2 => Some (10 * n1 + n2, read + 2)%nat
              | None => Some (n1, read + 1)%nat
              end
          | EmptyString => Some (n1, read + 1)%nat
          end
      | None => None
      end
  | EmptyString => None
  end.

(** The place marker whose ['%'] has just been read, if the text after it
    makes one: an optional ['L'], then the digits. *)
Definition escape_at (s : string) : option (nat * nat) :=
  match s with
  | String c rest =>
      if Ascii.eqb c "L" then escape_digits 1 rest else escape_digits 0 s
  | EmptyString => None
  end.

Definition option_min (n : nat) (m : option nat) : nat :=
  match m with
  | Some k => Nat.min n k
  | None => n
  end.

(** [findArgEscapes]: the lowest marker number of the string. *)
Fixpoint min_escape (s : string) : option nat :=
  match s with
  | EmptyString => None
  | String c rest =>
      if Ascii.eqb c "%" then
        match escape_at rest with
        | Some (n, _) => Some (option_min n (min_escape rest))
        | None => min_escape rest
        end
      else min_escape rest
  end.

(** [replaceArgEscapes]: every marker numbered [n] becomes [a]; [skip]
    counts the characters of a marker just replaced that are still ahead. *)
Fixpoint replace_escapes (n : nat) (a : string) (skip : nat) (s : string)
  : string :=
  match s with
  | EmptyString => EmptyString
  | String c rest =>
      match skip with
      | S k => replace_escapes n a k rest
      | O =>
          if Ascii.eqb c "%" then
            match escape_at rest with
            | Some (m, len) =>
                if (m =? n)%nat then a +:+ replace_escapes n a len rest
                else String c (replace_escapes n a 0 rest)
            | None => String c (replace_escapes n a 0 rest)
            end
          else String c (replace_escapes n a 0 rest)
      end
  end.

(** [QString::arg(const QString &a)] *)
Definition arg (s a : string) : string :=
  match min_escape s with
  | Some n => replace_escapes n a 0 s
  | None => s
  end.

(** [QString::arg(int a)] *)
Definition arg_int (s : string) (a : Z) : string := arg s (pretty a).

(** [above n o]: the marker number [o], when there is one, is greater than
    [n]. *)
Definition above (n : nat) (o : option nat) : Prop :=
  match o with
  | Some m => (n < m)%nat
  | None => True
  end.

(** The least of two optional marker numbers. *)
Definition option_least (a b : option nat) : option nat :=
  match a with
  | Some n => Some (option_min n b)
  | None => b
  end.

(** [t] cannot continue a place marker begun in the text before it: it is
    empty, or its first character is neither a digit nor ['L']. *)
Definition closes_marker (t : string) : Prop :=
  match t with
  | EmptyString => True
  | String ch _ => digitValue ch = None /\ Ascii.eqb ch "L" = false
  end.

(** How often the character [c] occurs in [s]. *)
Fixpoint count_char (c : ascii) (s : string) : nat :=
  match s with
  | EmptyString => 0
  | String d rest => (if Ascii.eqb d c then 1 else 0) + count_char c rest
  end.

(** The address holds no place marker numbered 2 or lower (so none that the
    two [arg] calls of [url] would take for one of the pattern's). *)
Definition no_low_marker (address : string) : Prop :=
  above 2 (min_escape address).

(** ** The collaborators

    Declared in headers and sources of the repository that are not part of
    this translation unit; the connection is parametrised over them. *)

Definition MTPint128 := Z.

(** The members of the base class [AbstractConnection] the transport uses.
    [readPQFakeReply data] stands for the whole of
    [readPQFakeReply(data).c_resPQ().vnonce]: the nonce read, or [None] when
    an [Exception] is thrown on the way. *)
Class AbstractConnection := {
  kErrorCodeOther : Z;
  preparePQFake : MTPint128 -> mtpBuffer;
  readPQFakeReply : mtpBuffer -> option MTPint128;
}.

(** [base/qthelp_url.h] *)
Class QtHelp := {
  is_ipv6 : string -> bool;
}.

(** ** Replies of the network manager *)

(** A [QNetworkReply*]. *)
Definition handle := positive.

(** [QNetworkReply::NetworkError]: the enumerators the source names, and
    [OtherNetworkError] for the rest of the Qt enumeration. *)
Inductive NetworkError :=
| NoError
| ConnectionRefusedError
| RemoteHostClosedError
| HostNotFoundError
| TimeoutError
| OperationCanceledError
| SslHandshakeFailedError
| TemporaryNetworkFailureError
| NetworkSessionFailedError
| BackgroundRequestNotAllowedError
| UnknownNetworkError
| ProxyConnectionRefusedError
| ProxyConnectionClosedError
| ProxyNotFoundError
| ProxyTimeoutError
| ProxyAuthenticationRequiredError
| UnknownProxyError
| ContentAccessDenied
| ContentOperationNotPermittedError
| ContentNotFoundError
| AuthenticationRequiredError
| ContentReSendError
| UnknownContentError
| ProtocolUnknownError
| ProtocolInvalidOperationError
| ProtocolFailure
| OtherNetworkError (code : Z).

#[global] Instance NetworkError_eq_dec : EqDecision NetworkError.
Proof. solve_decision. Defined.

(** What the methods read from a finished [QNetworkReply]:
    [reply_statusCode] is the [HttpStatusCodeAttribute], [None] for an
    invalid [QVariant] and [Some] of its [toInt()] otherwise. *)
Record Reply := {
  reply_handle : handle;
  reply_error : NetworkError;
  reply_readAll : QByteArray;
  reply_statusCode : option Z;
}.

(** The line [handleError] writes to the log. *)
Inductive LogClass :=
| LogConnectionRefused
| LogRemoteHostClosed
| LogHostNotFound
| LogTimeout
| LogCancelled
| LogNetworkError
| LogProxyError
| LogContentError
| LogProtocolError
| LogNothing.

(** ** The connection object *)

(** Modelled from the spec: [enum class Status] is declared in
    [connection_http.h], which is not among the sources.  The source names
    [Status::Ready] and [Status::Finished]; the third value, the one a new
    connection starts in, is the spec's Connecting. *)
Inductive Status := Connecting | Ready | Finished.

#[global] Instance Status_eq_dec : EqDecision Status.
Proof. solve_decision. Defined.

Record HttpConnection := {
  _status : Status;
  _address : string;
  _checkNonce : MTPint128;
  _pingTime : Z;
  _requests : gset handle;
  _receivedQueue : list mtpBuffer;
}.

Definition set_status (v : Status) (c : HttpConnection) : HttpConnection :=
  {| _status := v; _address := _address c; _checkNonce := _checkNonce c;
     _pingTime := _pingTime c; _requests := _requests c;
     _receivedQueue := _receivedQueue c |}.

Definition set_address (v : string) (c : HttpConnection) : HttpConnection :=
  {| _status := _status c; _address := v; _checkNonce := _checkNonce c;
     _pingTime := _pingTime c; _requests := _requests c;
     _receivedQueue := _receivedQueue c |}.

Definition set_pingTime (v : Z) (c : HttpConnection) : HttpConnection :=
  {| _status := _status c; _address := _address c;
     _checkNonce := _checkNonce c; _pingTime := v; _requests := _requests c;
     _receivedQueue := _receivedQueue c |}.

Definition set_requests (v : gset handle) (c : HttpConnection)
  : HttpConnection :=
  {| _status := _status c; _address := _address c;
     _checkNonce := _checkNonce c; _pingTime := _pingTime c; _requests := v;
     _receivedQueue := _receivedQueue c |}.

Definition set_receivedQueue (v : list mtpBuffer) (c : HttpConnection)
  : HttpConnection :=
  {| _status := _status c; _address := _address c;
     _checkNonce := _checkNonce c; _pingTime := _pingTime c;
     _requests := _requests c; _receivedQueue := v |}.

(** What a method does to the outside.  [Post] is
    [_manager.post(request, body)] with the request's URL and its two
    headers, and the reply object the manager returned for it;
    [ConnectFinished] and [DisconnectFinished] are the [connect] and
    [disconnect] of [QNetworkAccessManager::finished] to [requestFinished];
    [SetProxy] is [_manager.setProxy] (the proxy data, declared elsewhere, is
    not carried); the [Emit] events are the signals of the connection. *)
Inductive Event :=
| Post (target : string) (contentLength : Z) (contentType : string)
       (body : QByteArray) (reply : handle)
| Abort (reply : handle)
| DeleteLater (reply : handle)
| ConnectFinished
| DisconnectFinished
| SetProxy
| EmitError (code : Z)
| EmitConnected
| EmitReceivedData.

(** The events that are signals to the owner of the connection. *)
Definition is_signal (e : Event) : bool :=
  match e with
  | EmitError _ | EmitConnected | EmitReceivedData => true
  | _ => false
  end.

Definition is_post (e : Event) : bool :=
  match e with
  | Post _ _ _ _ _ => true
  | _ => false
  end.

Definition is_abort_of (h : handle) (e : Event) : bool :=
  match e with
  | Abort r => bool_decide (r = h)
  | _ => false
  end.

Definition is_deleteLater_of (h : handle) (e : Event) : bool :=
  match e with
  | DeleteLater r => bool_decide (r = h)
  | _ => false
  end.

(** How many events of a trace satisfy [p]. *)
Definition count_events (p : Event -> bool) (t : list Event) : nat :=
  length (List.filter p t).

Definition is_connected_signal (e : Event) : bool :=
  match e with
  | EmitConnected => true
  | _ => false
  end.

Definition is_receivedData_signal (e : Event) : bool :=
  match e with
  | EmitReceivedData => true
  | _ => false
  end.

(** The codes of the [error] signals of a trace, in order. *)
Definition error_codes (t : list Event) : list Z :=
  flat_map (fun e => match e with EmitError code => [code] | _ => [] end) t.

(** The values of an [mtpPrime]. *)
Definition int32_range (w : Z) : Prop := - 2 ^ 31 <= w < 2 ^ 31.

Definition kForceHttpPort : Z := 80.

(** [TimeMs(0)] and the like: [TimeMs] is a 64-bit signed integer. *)
Definition TimeMs (z : Z) : Z := to_int64 z.

Section Methods.
Context `{AbstractConnection} `{QtHelp}.

(** The constructor: [_checkNonce] is the random value drawn. *)
Definition new_HttpConnection (nonce : MTPint128) : HttpConnection :=
  {| _status := Connecting; _address := ""; _checkNonce := nonce;
     _pingTime := 0; _requests := ∅; _receivedQueue := [] |}.

(** [HttpConnection::url]: the text the [QUrl] is built from. *)
Definition url (c : HttpConnection) : string :=
  let pattern :=
    if is_ipv6 (_address c) then "http://[%1]:%2/api"
    else "http://%1:%2/api" in
  arg_int (arg pattern (_address c)) kForceHttpPort.

(** [HttpConnection::setProxyOverride] *)
Definition setProxyOverride (c : HttpConnection)
  : HttpConnection * list Event :=
  (c, [SetProxy]).

(** [HttpConnection::sendData].  [reply] is what [_manager.post] returns.
    The body is the [requestSize] bytes at [&buffer[2]]; a negative
    [requestSize], which takes a buffer of [2^29] words or more, is outside
    the model. *)
Definition sendData (c : HttpConnection) (buffer : mtpBuffer) (reply : handle)
  : HttpConnection * list Event :=
  if bool_decide (_status c = Finished) then (c, [])
  else if qsize buffer <? 3 then (c, [EmitError kErrorCodeOther])
  else
    let requestSize :=
      to_int32 (to_size_t (to_size_t (qsize buffer - 3) * sizeof_mtpPrime)) in
    let body :=
      take (Z.to_nat requestSize) (bytes_of_buffer (drop 2 buffer)) in
    (set_requests ({[reply]} ∪ _requests c) c,
     [Post (url c) requestSize "application/x-www-form-urlencoded" body
           reply]).

(** [HttpConnection::disconnectFromServer] *)
Definition disconnectFromServer (c : HttpConnection)
  : HttpConnection * list Event :=
  if bool_decide (_status c = Finished) then (c, [])
  else
    (set_requests ∅ (set_status Finished c),
     flat_map (fun request => [Abort request; DeleteLater request])
              (elements (_requests c))
     ++ [DisconnectFinished]).

(** [HttpConnection::connectToServer].  [now] is what [getms()] returns. *)
Definition connectToServer (c : HttpConnection) (address : string) (port : Z)
    (protocolSecret : list byte) (protocolDcId : Z) (now : Z) (reply : handle)
  : HttpConnection * list Event :=
  let c := set_address address c in
  let buffer := preparePQFake (_checkNonce c) in
  let c := set_pingTime now c in
  let '(c, events) := sendData c buffer reply in
  (c, ConnectFinished :: events).

(** The log class picked by the [switch] of [handleError]. *)
Definition error_log_class (e : NetworkError) : LogClass :=
  match e with
  | ConnectionRefusedError => LogConnectionRefused
  | RemoteHostClosedError => LogRemoteHostClosed
  | HostNotFoundError => LogHostNotFound
  | TimeoutError => LogTimeout
  | OperationCanceledError => LogCancelled
  | SslHandshakeFailedError
  | TemporaryNetworkFailureError
  | NetworkSessionFailedError
  | BackgroundRequestNotAllowedError
  | UnknownNetworkError => LogNetworkError
  | ProxyConnectionRefusedError
  | ProxyConnectionClosedError
  | ProxyNotFoundError
  | ProxyTimeoutError
  | ProxyAuthenticationRequiredError
  | UnknownProxyError => LogProxyError
  | ContentAccessDenied
  | ContentOperationNotPermittedError
  | ContentNotFoundError
  | AuthenticationRequiredError
  | ContentReSendError
  | UnknownContentError => LogContentError
  | ProtocolUnknownError
  | ProtocolInvalidOperationError
  | ProtocolFailure => LogProtocolError
  | NoError | OtherNetworkError _ => LogNothing
  end.

(** [HttpConnection::handleError]: the code returned and the line logged. *)
Definition handleError (reply : Reply) : Z * LogClass :=
  let result := kErrorCodeOther in
  let result :=
    match reply_statusCode reply with
    | Some status => to_int32 (- status)
    | None => result
    end in
  (result, error_log_class (reply_error reply)).

(** [HttpConnection::isConnected] *)
Definition isConnected (c : HttpConnection) : bool :=
  bool_decide (_status c = Ready).

(** [HttpConnection::requestFinished].  [now] is what [getms()] returns
    where the method calls it. *)
Definition requestFinished (c : HttpConnection) (reply : Reply) (now : Z)
  : HttpConnection * list Event :=
  if bool_decide (_status c = Finished) then (c, [])
  else
    let h := reply_handle reply in
    if bool_decide (reply_error reply = NoError) then
      let c := set_requests (_requests c ∖ {[h]}) c in
      let data := handleResponse (reply_readAll reply) in
      if qsize data =? 1 then
        (c, [DeleteLater h; EmitError (nth 0 data 0)])
      else if negb (bool_decide (data = [])) then
        if bool_decide (_status c = Ready) then
          (set_receivedQueue (_receivedQueue c ++ [data]) c,
           [DeleteLater h; EmitReceivedData])
        else
          match readPQFakeReply data with
          | Some vnonce =>
              if bool_decide (vnonce = _checkNonce c) then
                (set_pingTime (to_int64 (now - _pingTime c))
                   (set_status Ready c),
                 [DeleteLater h; EmitConnected])
              else (c, [DeleteLater h])
          | None => (c, [DeleteLater h; EmitError kErrorCodeOther])
          end
      else (c, [DeleteLater h])
    else if bool_decide (h ∈ _requests c) then
      (set_requests (_requests c ∖ {[h]}) c,
       [DeleteLater h; EmitError (fst (handleError reply))])
    else (c, [DeleteLater h]).

(** [HttpConnection::pingTime] *)
Definition pingTime (c : HttpConnection) : Z :=
  if isConnected c then _pingTime c else TimeMs 0.

(** [HttpConnection::usingHttpWait] *)
Definition usingHttpWait (c : HttpConnection) : bool := true.

(** [HttpConnection::needHttpWait] *)
Definition needHttpWait (c : HttpConnection) : bool :=
  bool_decide (size (_requests c) = 0%nat).

(** [HttpConnection::debugState] *)
Definition debugState (c : HttpConnection) : Z := -1.

(** [HttpConnection::transport] *)
Definition transport (c : HttpConnection) : string :=
  if negb (isConnected c) then ""
  else
    let result := "HTTP" in
    if is_ipv6 (_address c) then result +:+ "/IPv6" else result.

(** [HttpConnection::tag] *)
Definition tag (c : HttpConnection) : string :=
  let result := "HTTP" in
  if is_ipv6 (_address c) then result +:+ "/IPv6" else result +:+ "/IPv4".

(** The URL as the specification words it, to compare [url] with:
    [http://[host]:80/api] for an IPv6 literal, [http://host:80/api]
    otherwise. *)
Definition spec_url (host : string) : string :=
  if is_ipv6 host then "http://[" +:+ host +:+ "]:80/api"
  else "http://" +:+ host +:+ ":80/api".

(** ** Sequences of calls *)

(** One call on the connection, with what its environment supplies. *)
Inductive Op :=
| OpConnectToServer (address : string) (port : Z) (protocolSecret : list byte)
                    (protocolDcId : Z) (now : Z) (reply : handle)
| OpSendData (buffer : mtpBuffer) (reply : handle)
| OpRequestFinished (reply : Reply) (now : Z)
| OpDisconnectFromServer
| OpSetProxyOverride.

Definition step (c : HttpConnection) (op : Op) : HttpConnection * list Event :=
  match op with
  | OpConnectToServer address port protocolSecret protocolDcId now reply =>
      connectToServer c address port protocolSecret protocolDcId now reply
  | OpSendData buffer reply => sendData c buffer reply
  | OpRequestFinished reply now => requestFinished c reply now
  | OpDisconnectFromServer => disconnectFromServer c
  | OpSetProxyOverride => setProxyOverride c
  end.

(** The calls run one after the other, their events in order. *)
Fixpoint run (c : HttpConnection) (ops : list Op)
  : HttpConnection * list Event :=
  match ops with
  | [] => (c, [])
  | op :: rest =>
      let '(c1, t1) := step c op in
      let '(c2, t2) := run c1 rest in
      (c2, t1 ++ t2)
  end.

(** The tracked set is empty in every Finished connection: an invariant
    of the connection. *)
Definition finished_tracks_nothing (c : HttpConnection) : Prop :=
  _status c = Finished -> _requests c = ∅.

(** The order of the states: a connection only moves up in it. *)
Definition status_rank (s : Status) : nat :=
  match s with
  | Connecting => 0
  | Ready => 1
  | Finished => 2
  end.

End Methods.

(** ** Sample collaborators

    Stand-ins for the collaborators, to run the methods on concrete inputs.
    The theorems below hold for every choice of collaborators; these are only
    used where a statement is evaluated. *)

(** A probe of seven words: two header words, the nonce in four words, one
    trailing word. *)
Definition sample_preparePQFake (nonce : MTPint128) : mtpBuffer :=
  [0; 0; to_int32 nonce; to_int32 (nonce ≫ 32); to_int32 (nonce ≫ 64);
   to_int32 (nonce ≫ 96); 0].

(** A reply parses when it has exactly four words, which carry the nonce. *)
Definition sample_readPQFakeReply (data : mtpBuffer) : option MTPint128 :=
  match data with
  | [w0; w1; w2; w3] =>
      Some (w0 mod 2 ^ 32 + 2 ^ 32 * (w1 mod 2 ^ 32)
            + 2 ^ 64 * (w2 mod 2 ^ 32) + 2 ^ 96 * (w3 mod 2 ^ 32))
  | _ => None
  end.

Definition sample_connection : AbstractConnection :=
  {| kErrorCodeOther := -499;
     preparePQFake := sample_preparePQFake;
     readPQFakeReply := sample_readPQFakeReply |}.

Fixpoint contains_char (c : ascii) (s : string) : bool :=
  match s with
  | EmptyString => false
  | String d rest => Ascii.eqb c d || contains_char c rest
  end.

(** An address with a colon and no dot is taken for an IPv6 literal. *)
Definition sample_qthelp : QtHelp :=
  {| is_ipv6 := fun ip => negb (contains_char "." ip) && contains_char ":" ip |}.

(** A connection that has sent its probe at time 1000 and waits for reply 1. *)
Definition sample_connecting : HttpConnection :=
  {| _status := Connecting; _address := "203.0.113.5"; _checkNonce := 7;
     _pingTime := 1000; _requests := {[1%positive]}; _receivedQueue := [] |}.

(** An established connection with the replies 1 and 2 outstanding. *)
Definition sample_ready : HttpConnection :=
  {| _status := Ready; _address := "2001:db8::1"; _checkNonce := 7;
     _pingTime := 35; _requests := {[1%positive; 2%positive]};
     _receivedQueue := [] |}.

(** A failed reply with HTTP status 404, and one without a status. *)
Definition reply_404 : Reply :=
  {| reply_handle := 1%positive; reply_error := ContentNotFoundError;
     reply_readAll := []; reply_statusCode := Some 404 |}.

Definition reply_timeout : Reply :=
  {| reply_handle := 5%positive; reply_error := TimeoutError;
     reply_readAll := []; reply_statusCode := None |}.

(** Successful replies of four words: the nonce 7 and the nonce 8. *)
Definition reply_nonce_7 : Reply :=
  {| reply_handle := 1%positive; reply_error := NoError;
     reply_readAll := [x07; x00; x00; x00; x00; x00; x00; x00;
                       x00; x00; x00; x00; x00; x00; x00; x00];
     reply_statusCode := Some 200 |}.

Definition reply_nonce_8 : Reply :=
  {| reply_handle := 1%positive; reply_error := NoError;
     reply_readAll := [x08; x00; x00; x00; x00; x00; x00; x00;
                       x00; x00; x00; x00; x00; x00; x00; x00];
     reply_statusCode := Some 200 |}.

(** Successful replies with an empty body and with a body of three bytes. *)
Definition reply_empty : Reply :=
  {| reply_handle := 1%positive; reply_error := NoError;
     reply_readAll := []; reply_statusCode := Some 200 |}.

Definition reply_three_bytes : Reply :=
  {| reply_handle := 2%positive; reply_error := NoError;
     reply_readAll := [x01; x02; x03]; reply_statusCode := Some 200 |}.

(** A connection after its teardown. *)
Definition sample_finished : HttpConnection :=
  {| _status := Finished; _address := "2001:db8::1"; _checkNonce := 7;
     _pingTime := 35; _requests := ∅; _receivedQueue := [] |}.

(** ** Facts about machine integers and the byte layout *)

Lemma to_signed_small w z :
  0 < w -> - 2 ^ (w - 1) <= z < 2 ^ (w - 1) -> to_signed w z = z.
Proof.
  intros Hw Hz. unfold to_signed.
  assert (Hp : 2 ^ w = 2 * 2 ^ (w - 1)).
  { replace w with (Z.succ (w - 1)) at 1 by lia. apply Z.pow_succ_r. lia. }
  rewrite Z.mod_small; lia.
Qed.

Lemma to_signed_range w z :
  0 < w -> - 2 ^ (w - 1) <= to_signed w z < 2 ^ (w - 1).
Proof.
  intros Hw. unfold to_signed.
  assert (Hp : 2 ^ w = 2 * 2 ^ (w - 1)).
  { replace w with (Z.succ (w - 1)) at 1 by lia. apply Z.pow_succ_r. lia. }
  assert (0 < 2 ^ (w - 1)) by (apply Z.pow_pos_nonneg; lia).
  pose proof (Z.mod_pos_bound (z + 2 ^ (w - 1)) (2 ^ w)). lia.
Qed.

Lemma byte_to_Z_range b : 0 <= byte_to_Z b < 256.
Proof.
  unfold byte_to_Z. pose proof (Byte.to_N_bounded b). lia.
Qed.

Lemma byte_of_to_Z b : byte_of_Z (byte_to_Z b) = b.
Proof.
  unfold byte_of_Z. pose proof (byte_to_Z_range b).
  rewrite Z.mod_small by lia. unfold byte_to_Z.
  rewrite N2Z.id, Byte.of_to_N. reflexivity.
Qed.

Lemma byte_of_Z_mod z : byte_of_Z (z mod 256) = byte_of_Z z.
Proof. unfold byte_of_Z. rewrite Z.mod_mod by lia. reflexivity. Qed.

Lemma to_int32_cases x :
  0 <= x < 2 ^ 32 -> to_int32 x = x \/ to_int32 x = x - 2 ^ 32.
Proof.
  intros Hx. unfold to_int32, to_signed.
  change (2 ^ (32 - 1)) with 2147483648. change (2 ^ 32) with 4294967296 in *.
  destruct (Z_lt_dec x 2147483648).
  - left. rewrite Z.mod_small; lia.
  - right. replace (x + 2147483648) with (x - 2147483648 + 1 * 4294967296) by lia.
    rewrite Z.mod_add, Z.mod_small; lia.
Qed.

Lemma bytes_of_word_of_bytes b0 b1 b2 b3 :
  bytes_of_word (word_of_bytes b0 b1 b2 b3) = [b0; b1; b2; b3].
Proof.
  unfold bytes_of_word, word_of_bytes.
  pose proof (byte_to_Z_range b0). pose proof (byte_to_Z_range b1).
  pose proof (byte_to_Z_range b2). pose proof (byte_to_Z_range b3).
  set (x := byte_to_Z b0 + 2 ^ 8 * byte_to_Z b1
            + 2 ^ 16 * byte_to_Z b2 + 2 ^ 24 * byte_to_Z b3).
  assert (Hx : 0 <= x < 2 ^ 32) by (subst x; lia).
  rewrite !Z.shiftr_div_pow2 by lia.
  assert (Hb : forall y v, y mod 256 = byte_to_Z v -> byte_of_Z y = v).
  { intros y v Hy. rewrite <- byte_of_Z_mod, Hy. apply byte_of_to_Z. }
  change (2 ^ 32) with 4294967296 in *.
  change (2 ^ 8) with 256 in *. change (2 ^ 16) with 65536 in *.
  change (2 ^ 24) with 16777216 in *.
  destruct (to_int32_cases x Hx) as [-> | ->];
    change (2 ^ 32) with 4294967296;
    repeat f_equal; apply Hb; subst x;
    Z.to_euclidean_division_equations; lia.
Qed.

Lemma load_words_image k : forall bytes : QByteArray,
  length bytes = (4 * k)%nat ->
  bytes_of_buffer (load_words k bytes) = bytes /\
  length (load_words k bytes) = k.
Proof.
  induction k as [|k IH]; intros bytes Hlen.
  - destruct bytes; [split; reflexivity | discriminate].
  - destruct bytes as [|b0 [|b1 [|b2 [|b3 rest]]]]; simpl in Hlen; try lia.
    destruct (IH rest) as [Himg Hk]; [lia|].
    cbn [load_words nth drop]. unfold bytes_of_buffer in *.
    cbn [flat_map length]. rewrite drop_0, bytes_of_word_of_bytes, Himg, Hk.
    split; reflexivity.
Qed.

Lemma land_3_mod_4 n : Z.land n 3 = n mod 4.
Proof. change 3 with (Z.ones 2). rewrite Z.land_ones by lia. reflexivity. Qed.

(** ** handleResponse *)


Example handleResponse_two_words :
  handleResponse [x01; x00; x00; x00; xfe; xff; xff; xff] = [1; -2].
Proof. reflexivity. Qed.

Example handleResponse_odd_length :
  handleResponse [x01; x00; x00; x00; xfe; xff; xff; xff; x00] = [-500].
Proof. reflexivity. Qed.

Example handleResponse_one_word :
  handleResponse [x0c; xfe; xff; xff] = [-500].
Proof. reflexivity. Qed.

Section Properties.
Context `{AbstractConnection} `{QtHelp}.

(** ** handleError *)

(** C4: the code [handleError] returns for a failed reply is the negated
    HTTP status when the reply carries one (any [int] that has a negation),
    and [kErrorCodeOther] when it carries none; two replies with the same
    status attribute get the same code, whatever their error category; and
    this is the code [requestFinished] emits for a failed, tracked reply. *)
Theorem handleError_code (reply : Reply) :
  (forall status, reply_statusCode reply = Some status ->
     - 2 ^ 31 < status < 2 ^ 31 -> fst (handleError reply) = - status)
  /\ (reply_statusCode reply = None -> fst (handleError reply) = kErrorCodeOther)
  /\ (forall other, reply_statusCode other = reply_statusCode reply ->
        fst (handleError other) = fst (handleError reply))
  /\ (forall c now, _status c <> Finished -> reply_error reply <> NoError ->
        reply_handle reply ∈ _requests c ->
        snd (requestFinished c reply now)
        = [DeleteLater (reply_handle reply);
           EmitError (fst (handleError reply))]).
Proof.
  unfold handleError. cbn [fst]. repeat split.
  - intros status -> Hrange. apply to_signed_small; [lia|].
    change (2 ^ (32 - 1)) with (2 ^ 31). lia.
  - intros ->. reflexivity.
  - intros other ->. reflexivity.
  - intros c now Hst Herr Hin. unfold requestFinished.
    rewrite !bool_decide_eq_false_2 by assumption.
    rewrite bool_decide_eq_true_2 by assumption. reflexivity.
Qed.

(** ** sendData on a short buffer *)

(** C7: on a connection that is not Finished, [sendData] with a buffer of
    fewer than 3 words posts nothing, leaves the connection (its tracked
    replies included) as it was, and emits exactly one signal, the error
    [kErrorCodeOther]. *)
Theorem sendData_short_buffer (c : HttpConnection) (buffer : mtpBuffer)
    (reply : handle) :
  _status c <> Finished -> qsize buffer < 3 ->
  fst (sendData c buffer reply) = c
  /\ snd (sendData c buffer reply) = [EmitError kErrorCodeOther]
  /\ count_events is_post (snd (sendData c buffer reply)) = 0%nat
  /\ count_events is_signal (snd (sendData c buffer reply)) = 1%nat.
Proof.
  intros Hst Hlen. unfold sendData.
  rewrite bool_decide_eq_false_2 by assumption.
  destruct (Z.ltb_spec (qsize buffer) 3); [|lia].
  repeat split.
Qed.

(** ** Late completions *)

(** C8: a failed completion for a reply that is not tracked leaves the
    connection as it was (status, queue and tracked set) and emits no signal;
    all the method does is release the reply object. *)
Theorem requestFinished_untracked_failure (c : HttpConnection) (reply : Reply)
    (now : Z) :
  reply_error reply <> NoError -> reply_handle reply ∉ _requests c ->
  fst (requestFinished c reply now) = c
  /\ count_events is_signal (snd (requestFinished c reply now)) = 0%nat
  /\ (snd (requestFinished c reply now) = []
      \/ snd (requestFinished c reply now) = [DeleteLater (reply_handle reply)]).
Proof.
  intros Herr Hnotin. unfold requestFinished.
  case_bool_decide as Hfin; [by auto|].
  rewrite !bool_decide_eq_false_2 by assumption.
  by auto.
Qed.

(** ** The long-poll queries *)

(** C10: in every state [needHttpWait] answers true exactly when no reply is
    tracked, and [usingHttpWait] answers true. *)
Theorem needHttpWait_iff_no_requests (c : HttpConnection) :
  (needHttpWait c = true <-> _requests c = ∅)
  /\ (needHttpWait c = true <-> forall h, h ∉ _requests c)
  /\ usingHttpWait c = true.
Proof.
  unfold needHttpWait, usingHttpWait.
  rewrite bool_decide_eq_true, size_empty_iff.
  repeat split; try (intros; set_solver).
Qed.

(** ** The life cycle *)

Lemma sendData_status c buffer reply :
  _status (fst (sendData c buffer reply)) = _status c.
Proof.
  unfold sendData. case_bool_decide; [done|]. by destruct (_ <? _).
Qed.

Lemma connectToServer_status c address port secret dcId now reply :
  _status (fst (connectToServer c address port secret dcId now reply))
  = _status c.
Proof.
  unfold connectToServer.
  destruct (sendData _ _ _) as [c' t] eqn:Hsend. cbn [fst].
  change c' with (fst (c', t)). rewrite <- Hsend, sendData_status. done.
Qed.

Lemma disconnectFromServer_status c :
  _status (fst (disconnectFromServer c)) = Finished.
Proof. unfold disconnectFromServer. by case_bool_decide. Qed.

Lemma requestFinished_status c reply now :
  _status (fst (requestFinished c reply now)) = _status c
  \/ (_status c = Connecting
      /\ _status (fst (requestFinished c reply now)) = Ready).
Proof.
  unfold requestFinished.
  repeat (case_bool_decide || case_match); cbn in *; auto.
  all: right; split; [|done]; by destruct (_status c).
Qed.

(** One call moves the status along an edge of the life cycle or not at all. *)
Lemma step_status c op :
  _status (fst (step c op)) = _status c
  \/ (_status c = Connecting /\ _status (fst (step c op)) = Ready)
  \/ (_status c <> Finished /\ _status (fst (step c op)) = Finished).
Proof.
  destruct op as [address port secret dcId now reply | buffer reply
                 | reply now | | ]; cbn [step].
  - left. apply connectToServer_status.
  - left. apply sendData_status.
  - destruct (requestFinished_status c reply now); auto.
  - rewrite disconnectFromServer_status.
    destruct (decide (_status c = Finished)) as [-> |]; auto.
  - by left.
Qed.

Lemma run_cons c op rest :
  run c (op :: rest)
  = (fst (run (fst (step c op)) rest),
     snd (step c op) ++ snd (run (fst (step c op)) rest)).
Proof.
  cbn [run]. destruct (step c op) as [c1 t1].
  cbn [fst snd]. by destruct (run c1 rest).
Qed.

(** C5: over every sequence of calls (connect, send, request completion,
    disconnect) the status only moves up in the order Connecting, Ready,
    Finished: each call leaves it or takes one of the edges Connecting to
    Ready, Connecting to Finished, Ready to Finished; a Ready connection is
    never Connecting again and a Finished one stays Finished. *)
Theorem status_never_regresses (c : HttpConnection) (ops : list Op) :
  (status_rank (_status c) <= status_rank (_status (fst (run c ops))))%nat
  /\ (_status c = Ready -> _status (fst (run c ops)) <> Connecting)
  /\ (_status c = Finished -> _status (fst (run c ops)) = Finished)
  /\ (forall op,
        _status (fst (step c op)) = _status c
        \/ (_status c = Connecting /\ _status (fst (step c op)) = Ready)
        \/ (_status c = Connecting /\ _status (fst (step c op)) = Finished)
        \/ (_status c = Ready /\ _status (fst (step c op)) = Finished)).
Proof.
  assert (Hmono : forall ops c,
    (status_rank (_status c) <= status_rank (_status (fst (run c ops))))%nat).
  { clear c ops. induction ops as [|op rest IH]; intros c; [done|].
    rewrite run_cons. cbn [fst]. specialize (IH (fst (step c op))).
    destruct (step_status c op) as [Heq | [[Hc Hr] | [Hc Hf]]].
    - by rewrite <- Heq.
    - rewrite Hr in IH. rewrite Hc. cbn in *. lia.
    - rewrite Hf in IH. destruct (_status c); cbn in *; lia. }
  specialize (Hmono ops c). repeat split.
  - exact Hmono.
  - intros Hr Hc. rewrite Hr, Hc in Hmono. cbn in Hmono. lia.
  - intros Hf. rewrite Hf in Hmono.
    destruct (_status (fst (run c ops))); cbn in Hmono; done || lia.
  - intros op.
    destruct (step_status c op) as [Heq | [[Hc Hr] | [Hc Hf]]]; auto.
    destruct (_status c) eqn:Hs; auto.
Qed.

(** ** Teardown *)

Lemma new_HttpConnection_invariant nonce :
  finished_tracks_nothing (new_HttpConnection nonce).
Proof. intros Hf. discriminate Hf. Qed.

Lemma step_invariant c op :
  finished_tracks_nothing c -> finished_tracks_nothing (fst (step c op)).
Proof.
  unfold finished_tracks_nothing. intros Hinv.
  destruct op as [address port secret dcId now reply | buffer reply
                 | reply now | | ]; cbn [step].
  - unfold connectToServer, sendData. cbn.
    repeat (case_bool_decide || case_match); cbn in *;
      simplify_eq; cbn in *; auto; congruence.
  - unfold sendData.
    repeat (case_bool_decide || case_match); cbn in *; auto; congruence.
  - unfold requestFinished.
    repeat (case_bool_decide || case_match); cbn in *; auto; congruence.
  - unfold disconnectFromServer. case_bool_decide; cbn; auto.
  - exact Hinv.
Qed.

Lemma run_invariant ops : forall c,
  finished_tracks_nothing c -> finished_tracks_nothing (fst (run c ops)).
Proof.
  induction ops as [|op rest IH]; intros c Hinv; [done|].
  rewrite run_cons. cbn [fst]. by apply IH, step_invariant.
Qed.

(** The invariant holds in every state a connection can reach. *)
Lemma reachable_invariant nonce ops :
  finished_tracks_nothing (fst (run (new_HttpConnection nonce) ops)).
Proof. apply run_invariant, new_HttpConnection_invariant. Qed.

Lemma count_events_app p t1 t2 :
  count_events p (t1 ++ t2) = (count_events p t1 + count_events p t2)%nat.
Proof. unfold count_events. by rewrite List.filter_app, length_app. Qed.

Lemma count_abort_teardown h (l : list handle) :
  NoDup l ->
  count_events (is_abort_of h)
    (flat_map (fun request => [Abort request; DeleteLater request]) l)
  = (if bool_decide (h ∈ l) then 1 else 0)%nat.
Proof.
  induction 1 as [|r l Hnotin Hnd IH]; [done|].
  cbn [flat_map]. rewrite count_events_app, IH. unfold count_events at 1.
  cbn. destruct (decide (r = h)) as [-> | Hne].
  - rewrite (bool_decide_eq_true_2 (h = h)) by done.
    rewrite (bool_decide_eq_false_2 (h ∈ l)) by done.
    rewrite bool_decide_eq_true_2 by set_solver. done.
  - rewrite (bool_decide_eq_false_2 (r = h)) by done. cbn.
    apply (f_equal (fun b : bool => if b then 1%nat else 0%nat)).
    apply bool_decide_ext. rewrite elem_of_cons.
    split; [by right | intros [Heq | Hin]; [by subst | done]].
Qed.

Lemma count_deleteLater_teardown h (l : list handle) :
  NoDup l ->
  count_events (is_deleteLater_of h)
    (flat_map (fun request => [Abort request; DeleteLater request]) l)
  = (if bool_decide (h ∈ l) then 1 else 0)%nat.
Proof.
  induction 1 as [|r l Hnotin Hnd IH]; [done|].
  cbn [flat_map]. rewrite count_events_app, IH. unfold count_events at 1.
  cbn. destruct (decide (r = h)) as [-> | Hne].
  - rewrite (bool_decide_eq_true_2 (h = h)) by done.
    rewrite (bool_decide_eq_false_2 (h ∈ l)) by done.
    rewrite bool_decide_eq_true_2 by set_solver. done.
  - rewrite (bool_decide_eq_false_2 (r = h)) by done. cbn.
    apply (f_equal (fun b : bool => if b then 1%nat else 0%nat)).
    apply bool_decide_ext. rewrite elem_of_cons.
    split; [by right | intros [Heq | Hin]; [by subst | done]].
Qed.

Lemma sendData_finished c buffer reply :
  _status c = Finished -> sendData c buffer reply = (c, []).
Proof. intros Hf. unfold sendData. by rewrite bool_decide_eq_true_2. Qed.

Lemma run_sends_finished (sends : list (mtpBuffer * handle)) c :
  _status c = Finished ->
  run c (map (fun s => OpSendData (fst s) (snd s)) sends) = (c, []).
Proof.
  intros Hf. induction sends as [|[buffer reply] rest IH]; [done|].
  cbn [map fst snd]. rewrite run_cons. cbn [step].
  rewrite sendData_finished by done. cbn [fst snd]. by rewrite IH.
Qed.

(** C6: on a connection that satisfies the invariant (a Finished connection
    tracks nothing, as in every state a connection can reach:
    [reachable_invariant]), a second [disconnectFromServer] right after the
    first
    changes nothing and does nothing, so two calls in a row give the state
    and the events of one; after the first call the status is Finished and
    the tracked set empty; its events abort and release every reply that was
    tracked exactly once, and no other; and every later [sendData] leaves the
    connection as it is and causes no event. *)
Theorem disconnectFromServer_idempotent (c : HttpConnection) :
  finished_tracks_nothing c ->
  let c1 := fst (disconnectFromServer c) in
  let t1 := snd (disconnectFromServer c) in
  disconnectFromServer c1 = (c1, [])
  /\ run c [OpDisconnectFromServer; OpDisconnectFromServer]
     = run c [OpDisconnectFromServer]
  /\ _status c1 = Finished
  /\ _requests c1 = ∅
  /\ (forall h, count_events (is_abort_of h) t1
                = if bool_decide (h ∈ _requests c) then 1%nat else 0%nat)
  /\ (forall h, count_events (is_deleteLater_of h) t1
                = if bool_decide (h ∈ _requests c) then 1%nat else 0%nat)
  /\ (forall sends : list (mtpBuffer * handle),
        run c1 (map (fun s => OpSendData (fst s) (snd s)) sends) = (c1, [])).
Proof.
  intros Hinv c1 t1.
  assert (Hf : _status c1 = Finished) by apply disconnectFromServer_status.
  assert (Hagain : disconnectFromServer c1 = (c1, [])).
  { unfold disconnectFromServer at 1. by rewrite bool_decide_eq_true_2. }
  split; [exact Hagain|]. split.
  { rewrite !run_cons. cbn [run step fst snd]. fold c1 t1.
    rewrite Hagain. cbn [fst snd]. by rewrite !app_nil_r. }
  split; [exact Hf|]. split.
  { subst c1. unfold disconnectFromServer.
    case_bool_decide as Hc; [by apply Hinv | done]. }
  assert (Hcount : forall p : handle -> Event -> bool,
    (forall h, p h DisconnectFinished = false) ->
    (forall h l, NoDup l ->
       count_events (p h)
         (flat_map (fun request => [Abort request; DeleteLater request]) l)
       = (if bool_decide (h ∈ l) then 1 else 0)%nat) ->
    forall h, count_events (p h) t1
              = if bool_decide (h ∈ _requests c) then 1%nat else 0%nat).
  { intros p Hp Hl h. subst t1. unfold disconnectFromServer.
    case_bool_decide as Hc; cbn [snd].
    - rewrite (Hinv Hc). by rewrite bool_decide_eq_false_2 by set_solver.
    - rewrite count_events_app, Hl by apply NoDup_elements.
      unfold count_events. cbn [List.filter]. rewrite Hp. cbn.
      rewrite Nat.add_0_r.
      apply (f_equal (fun b : bool => if b then 1%nat else 0%nat)).
      apply bool_decide_ext, elem_of_elements. }
  split; [apply (Hcount is_abort_of); [done | apply count_abort_teardown]|].
  split; [apply (Hcount is_deleteLater_of);
            [done | apply count_deleteLater_teardown]|].
  intros sends. by apply run_sends_finished.
Qed.

(** ** sendData on a well-formed buffer *)

Lemma bytes_of_buffer_length (l : mtpBuffer) :
  length (bytes_of_buffer l) = (4 * length l)%nat.
Proof.
  unfold bytes_of_buffer. induction l as [|w l IH]; [done|].
  cbn [flat_map]. rewrite length_app, IH. cbn [bytes_of_word length]. lia.
Qed.

Lemma take_bytes_of_buffer k : forall l : mtpBuffer,
  take (4 * k) (bytes_of_buffer l) = bytes_of_buffer (take k l).
Proof.
  unfold bytes_of_buffer.
  induction k as [|k IH]; intros l; [by rewrite !take_0|].
  destruct l as [|w l]; [done|].
  replace (4 * S k)%nat with (4 + 4 * k)%nat by lia.
  cbn [flat_map take bytes_of_word app Nat.add]. by rewrite IH.
Qed.

Lemma requestSize_exact n :
  3 <= n -> (n - 3) * 4 < 2 ^ 31 ->
  to_int32 (to_size_t (to_size_t (n - 3) * sizeof_mtpPrime)) = (n - 3) * 4.
Proof.
  intros Hn Hfit. unfold to_size_t, sizeof_mtpPrime.
  assert (2 ^ 31 < 2 ^ 64) by (apply Z.pow_lt_mono_r; lia).
  rewrite (Z.mod_small (n - 3)) by lia.
  rewrite Z.mod_small by lia.
  apply to_signed_small; [lia|]. change (2 ^ (32 - 1)) with (2 ^ 31). lia.
Qed.

(** C1 (as the code has it): on a connection that is not Finished,
    [sendData] with a buffer of [N >= 3] words, its payload of [(N-3)*4]
    bytes fitting an [int32], posts exactly one request.  The body is
    [(N-3)*4] bytes long: the memory image of the words from offset 2 up to,
    and not including, the last word.  The two header words and the trailing
    word are not sent; the Content-Length header carries the body length, and
    the reply object is added to the tracked set. *)
Theorem sendData_posts_payload (c : HttpConnection) (buffer : mtpBuffer)
    (reply : handle) :
  _status c <> Finished -> 3 <= qsize buffer ->
  (qsize buffer - 3) * 4 < 2 ^ 31 ->
  let payload := bytes_of_buffer (take (length buffer - 3) (drop 2 buffer)) in
  sendData c buffer reply
  = (set_requests ({[reply]} ∪ _requests c) c,
     [Post (url c) ((qsize buffer - 3) * 4)
           "application/x-www-form-urlencoded" payload reply])
  /\ qsize payload = (qsize buffer - 3) * 4
  /\ count_events is_post (snd (sendData c buffer reply)) = 1%nat.
Proof.
  intros Hst Hn Hfit payload.
  assert (Hsend : sendData c buffer reply
    = (set_requests ({[reply]} ∪ _requests c) c,
       [Post (url c) ((qsize buffer - 3) * 4)
             "application/x-www-form-urlencoded" payload reply])).
  { unfold sendData. rewrite bool_decide_eq_false_2 by assumption.
    destruct (Z.ltb_spec (qsize buffer) 3); [lia|].
    rewrite requestSize_exact by assumption.
    replace (Z.to_nat ((qsize buffer - 3) * 4))
      with (4 * (length buffer - 3))%nat by (unfold qsize in *; lia).
    by rewrite take_bytes_of_buffer. }
  rewrite Hsend. repeat split.
  subst payload. unfold qsize in *.
  rewrite bytes_of_buffer_length, length_take, length_drop. lia.
Qed.

(** ** The handshake *)

(** C2 (as the code has it): a successful completion on a Connecting
    connection whose response decodes to a frame of two or more words.  When
    the frame parses and its nonce is [_checkNonce], the status becomes
    Ready, exactly one signal is emitted, [connected], and [_pingTime]
    becomes the time elapsed since the probe, at least 0 when the clock has
    not gone back.  When the frame does not parse, the status stays
    Connecting and exactly one signal is emitted, the error
    [kErrorCodeOther].  When the frame parses and its nonce differs from
    [_checkNonce], the status stays Connecting and no signal is emitted. *)
Theorem requestFinished_handshake (c : HttpConnection) (reply : Reply)
    (now : Z) :
  _status c = Connecting -> reply_error reply = NoError ->
  2 <= qsize (handleResponse (reply_readAll reply)) ->
  let data := handleResponse (reply_readAll reply) in
  let c' := fst (requestFinished c reply now) in
  let events := snd (requestFinished c reply now) in
  (readPQFakeReply data = Some (_checkNonce c) ->
     _status c' = Ready
     /\ events = [DeleteLater (reply_handle reply); EmitConnected]
     /\ _pingTime c' = to_int64 (now - _pingTime c)
     /\ (_pingTime c <= now -> now - _pingTime c < 2 ^ 63 ->
         _pingTime c' = now - _pingTime c /\ 0 <= _pingTime c'))
  /\ (readPQFakeReply data = None ->
        _status c' = Connecting
        /\ events = [DeleteLater (reply_handle reply);
                     EmitError kErrorCodeOther])
  /\ (forall vnonce, readPQFakeReply data = Some vnonce ->
        vnonce <> _checkNonce c ->
        _status c' = Connecting
        /\ events = [DeleteLater (reply_handle reply)]
        /\ count_events is_signal events = 0%nat).
Proof.
  intros Hst Herr Hlen data c' events.
  assert (Hrun : requestFinished c reply now
    = let c1 := set_requests (_requests c ∖ {[reply_handle reply]}) c in
      match readPQFakeReply data with
      | Some vnonce =>
          if bool_decide (vnonce = _checkNonce c) then
            (set_pingTime (to_int64 (now - _pingTime c)) (set_status Ready c1),
             [DeleteLater (reply_handle reply); EmitConnected])
          else (c1, [DeleteLater (reply_handle reply)])
      | None =>
          (c1, [DeleteLater (reply_handle reply); EmitError kErrorCodeOther])
      end).
  { unfold requestFinished. rewrite Hst, Herr. fold data.
    rewrite (bool_decide_eq_false_2 (Connecting = Finished)) by done.
    rewrite (bool_decide_eq_true_2 (NoError = NoError)) by done.
    cbn [_status set_requests]. rewrite Hst.
    rewrite (bool_decide_eq_false_2 (Connecting = Ready)) by done.
    destruct (Z.eqb_spec (qsize data) 1); [subst data; lia|].
    rewrite (bool_decide_eq_false_2 (data = [])); [done|].
    intros Hnil. subst data. rewrite Hnil in Hlen. unfold qsize in Hlen.
    cbn in Hlen. lia. }
  subst c' events. rewrite Hrun. cbn zeta.
  split; [intros Hparse | split; [intros Hparse | intros vnonce Hparse Hne]];
    rewrite Hparse.
  - rewrite bool_decide_eq_true_2 by done. cbn [fst snd _status _pingTime
      set_pingTime set_status set_requests].
    split; [done|]. split; [done|]. split; [done|]. intros Hmono Hfit.
    unfold to_int64. rewrite to_signed_small;
      change (2 ^ (64 - 1)) with (2 ^ 63); lia.
  - done.
  - by rewrite bool_decide_eq_false_2.
Qed.

(** ** The target URL *)

Lemma append_nil_l (t : string) : "" +:+ t = t.
Proof. reflexivity. Qed.

Lemma append_cons (c : ascii) (s t : string) :
  String c s +:+ t = String c (s +:+ t).
Proof. reflexivity. Qed.

Lemma escape_digits_app read (s t : string) :
  closes_marker t -> escape_digits read (s +:+ t) = escape_digits read s.
Proof.
  intros Ht. destruct s as [|d1 r1];
    rewrite ?append_cons, ?append_nil_l; cbn [escape_digits].
  - destruct t as [|ch t']; [done|]. cbn [escape_digits].
    by destruct Ht as [-> _].
  - destruct (digitValue d1); [|done].
    destruct r1 as [|d2 r2]; [|done]. rewrite append_nil_l.
    destruct t as [|ch t']; [done|]. by destruct Ht as [-> _].
Qed.

Lemma escape_at_app (s t : string) :
  closes_marker t -> escape_at (s +:+ t) = escape_at s.
Proof.
  intros Ht. destruct s as [|c rest].
  - destruct t as [|ch t']; [done|]. destruct Ht as [Hd HL].
    rewrite append_nil_l. cbn [escape_at escape_digits]. by rewrite HL, Hd.
  - rewrite append_cons. cbn [escape_at]. destruct (Ascii.eqb c "L").
    + by apply escape_digits_app.
    + rewrite <- append_cons. by apply escape_digits_app.
Qed.

Lemma escape_digits_length read (s : string) m len :
  escape_digits read s = Some (m, len) -> (len <= read + String.length s)%nat.
Proof.
  destruct s as [|d1 r1]; cbn [escape_digits String.length]; [done|].
  destruct (digitValue d1); [|done].
  destruct r1 as [|d2 r2]; cbn [String.length].
  - intros [= _ <-]. lia.
  - destruct (digitValue d2); intros [= _ <-]; lia.
Qed.

Lemma escape_at_length (s : string) m len :
  escape_at s = Some (m, len) -> (len <= String.length s)%nat.
Proof.
  destruct s as [|c rest]; [done|]. cbn [escape_at].
  destruct (Ascii.eqb c "L"); intros Hd%escape_digits_length;
    cbn [String.length] in *; lia.
Qed.

Lemma option_min_least n a b :
  option_min n (option_least a b) = option_min (option_min n a) b.
Proof.
  destruct a as [k|], b as [j|]; cbn; try done. by rewrite Nat.min_assoc.
Qed.

Lemma min_escape_app (s t : string) :
  closes_marker t ->
  min_escape (s +:+ t) = option_least (min_escape s) (min_escape t).
Proof.
  intros Ht. induction s as [|c s IH]; [done|].
  rewrite append_cons. cbn [min_escape]. rewrite escape_at_app, IH by done.
  destruct (Ascii.eqb c "%"); [|done].
  destruct (escape_at s) as [[m len]|]; [|done].
  cbn [option_least]. by rewrite option_min_least.
Qed.

Lemma append_assoc (a b c : string) : (a +:+ b) +:+ c = a +:+ (b +:+ c).
Proof.
  induction a as [|x a IH]; [done|]. by rewrite !append_cons, IH.
Qed.

Lemma replace_escapes_app n a (s t : string) :
  closes_marker t -> forall skip, (skip <= String.length s)%nat ->
  replace_escapes n a skip (s +:+ t)
  = replace_escapes n a skip s +:+ replace_escapes n a 0 t.
Proof.
  intros Ht. induction s as [|c s IH]; intros skip Hskip.
  - cbn in Hskip. by replace skip with 0%nat by lia.
  - rewrite append_cons. cbn [replace_escapes]. destruct skip as [|k].
    + rewrite escape_at_app by done.
      destruct (Ascii.eqb c "%"); [|by rewrite IH, append_cons by lia].
      destruct (escape_at s) as [[m len]|] eqn:Hesc;
        [|by rewrite IH, append_cons by lia].
      destruct (m =? n)%nat; [|by rewrite IH, append_cons by lia].
      apply escape_at_length in Hesc. by rewrite IH, append_assoc.
    + apply IH. cbn in Hskip. lia.
Qed.

Lemma above_option_min n m o :
  (n < option_min m o)%nat -> (n < m)%nat /\ above n o.
Proof. destruct o as [k|]; cbn; lia. Qed.

(** Text whose markers are all numbered above [n] is left as it is. *)
Lemma replace_escapes_above n a (s : string) :
  above n (min_escape s) -> replace_escapes n a 0 s = s.
Proof.
  induction s as [|c s IH]; [done|]. cbn [min_escape replace_escapes].
  destruct (Ascii.eqb c "%"); [|by intros ->%IH].
  destruct (escape_at s) as [[m len]|]; [|by intros ->%IH].
  cbn [above]. intros [Hm Hrest]%above_option_min.
  destruct (Nat.eqb_spec m n); [lia|]. by rewrite IH.
Qed.

(** The second [arg] of [url], on the text the first one leaves: [tail] is
    the rest of the pattern after the address, with [%2] its only marker. *)
Lemma arg_port_after_address (address tail filled : string) :
  no_low_marker address -> closes_marker tail ->
  min_escape tail = Some 2%nat ->
  replace_escapes 2 (pretty kForceHttpPort) 0 tail = filled ->
  arg_int (address +:+ tail) kForceHttpPort = address +:+ filled.
Proof.
  intros Hlow Htail Hmin Hfill. unfold arg_int, arg.
  rewrite min_escape_app, Hmin by done.
  assert (Hleast : option_least (min_escape address) (Some 2%nat)
                   = Some 2%nat).
  { unfold no_low_marker in Hlow. destruct (min_escape address) as [k|]; cbn.
    - cbn in Hlow. f_equal. lia.
    - done. }
  rewrite Hleast, replace_escapes_app, Hfill by (done || lia).
  by rewrite replace_escapes_above.
Qed.

Lemma arg_int_plain_prefix (c : ascii) (s : string) port :
  Ascii.eqb c "%" = false -> min_escape s <> None ->
  arg_int (String c s) port = String c (arg_int s port).
Proof.
  intros Hc Hs. unfold arg_int, arg. cbn [min_escape]. rewrite Hc.
  destruct (min_escape s) as [n|]; [|done].
  cbn [replace_escapes]. by rewrite Hc.
Qed.

Lemma url_spec_url (c : HttpConnection) :
  no_low_marker (_address c) -> url c = spec_url (_address c).
Proof.
  intros Hlow. unfold url, spec_url.
  assert (Hsome : forall tail, closes_marker tail ->
    min_escape tail = Some 2%nat -> min_escape (_address c +:+ tail) <> None).
  { intros tail Ht Hmin. rewrite min_escape_app, Hmin by done.
    by destruct (min_escape (_address c)). }
  destruct (is_ipv6 (_address c)).
  - change (arg "http://[%1]:%2/api" (_address c))
      with ("http://[" +:+ _address c +:+ "]:%2/api").
    rewrite !append_cons, append_nil_l.
    rewrite !arg_int_plain_prefix by (done || by apply Hsome).
    by rewrite (arg_port_after_address _ _ "]:80/api").
  - change (arg "http://%1:%2/api" (_address c))
      with ("http://" +:+ _address c +:+ ":%2/api").
    rewrite !append_cons, append_nil_l.
    rewrite !arg_int_plain_prefix by (done || by apply Hsome).
    by rewrite (arg_port_after_address _ _ ":80/api").
Qed.

(** X20: where the chained [arg] of [url] works as meant.  For every address
    that holds no [QString] place marker numbered 2 or lower (every address
    without a ['%'] is one), the text [url] builds is
    [http://[address]:80/api] when [is_ipv6] takes the address for an IPv6
    literal and [http://address:80/api] otherwise.  The port passed to
    [connectToServer] is never read: whatever it is, the connection then
    builds this text, and every request the call posts is addressed with
    it. *)
Theorem url_forces_port_80 (c : HttpConnection) (address : string) :
  no_low_marker address ->
  (_address c = address -> url c = spec_url address)
  /\ (forall port protocolSecret protocolDcId now reply,
        let r := connectToServer c address port protocolSecret protocolDcId
                                 now reply in
        _address (fst r) = address
        /\ url (fst r) = spec_url address
        /\ forall target len type body h,
             Post target len type body h ∈ snd r -> target = spec_url address).
Proof.
  intros Hlow. split.
  - intros <-. by apply url_spec_url.
  - intros port protocolSecret protocolDcId now reply r. subst r.
    unfold connectToServer, sendData.
    set (c1 := set_pingTime now (set_address address c)).
    assert (Hurl : url c1 = spec_url address) by by apply url_spec_url.
    case_bool_decide; [|destruct (_ <? _)]; cbn [fst snd].
    + split; [done|]. split; [done|]. intros ????? Hin.
      apply list_elem_of_singleton in Hin. done.
    + split; [done|]. split; [done|]. intros ????? Hin.
      apply elem_of_cons in Hin as [Hin | Hin]; [done|].
      apply list_elem_of_singleton in Hin. done.
    + split; [done|]. split; [by apply url_spec_url|]. intros ????? Hin.
      apply elem_of_cons in Hin as [Hin | Hin]; [done|].
      apply list_elem_of_singleton in Hin. by injection Hin as -> _ _ _ _.
Qed.

End Properties.

(** ** The statements at concrete inputs *)


Lemma status_never_regresses_witness :
  _status sample_ready = Ready
  /\ _status (fst (@run sample_connection sample_qthelp sample_ready
                     [OpRequestFinished reply_nonce_8 50;
                      OpConnectToServer "203.0.113.5" 443 [] 2 60 3%positive;
                      OpSendData [0; 0; 1; 2; 3] 4%positive]))
     <> Connecting.
Proof.
  split; [reflexivity|].
  apply (@status_never_regresses sample_connection sample_qthelp sample_ready).
  reflexivity.
Defined.

Lemma sendData_posts_payload_witness :
  _status sample_ready <> Finished
  /\ 3 <= qsize [0; 0; 1; 2; 3]
  /\ @sendData sample_connection sample_qthelp sample_ready [0; 0; 1; 2; 3]
       9%positive
     = (set_requests ({[9%positive]} ∪ _requests sample_ready) sample_ready,
        [Post (@url sample_qthelp sample_ready) 8
              "application/x-www-form-urlencoded"
              [x01; x00; x00; x00; x02; x00; x00; x00] 9%positive]).
Proof.
  split; [discriminate|]. split; [by vm_compute|].
  apply (@sendData_posts_payload sample_connection sample_qthelp sample_ready
           [0; 0; 1; 2; 3] 9%positive);
    [discriminate | by vm_compute | by vm_compute].
Defined.

(** By the specification the body for the buffer [[0; 0; 1; 2; 3]] is the
    twelve bytes of the words 1, 2, 3; the request posted carries the eight
    bytes of the words 1, 2.  For a buffer of three words the body is
    empty. *)
Lemma sendData_drops_last_word :
  snd (@sendData sample_connection sample_qthelp sample_ready [0; 0; 1; 2; 3]
         9%positive)
  = [Post "http://[2001:db8::1]:80/api" 8 "application/x-www-form-urlencoded"
          [x01; x00; x00; x00; x02; x00; x00; x00] 9%positive]
  /\ bytes_of_buffer (drop 2 [0; 0; 1; 2; 3])
     = [x01; x00; x00; x00; x02; x00; x00; x00; x03; x00; x00; x00]
  /\ 8 <> (qsize [0; 0; 1; 2; 3] - 2) * 4
  /\ snd (@sendData sample_connection sample_qthelp sample_ready [0; 0; 7]
            9%positive)
     = [Post "http://[2001:db8::1]:80/api" 0
             "application/x-www-form-urlencoded" [] 9%positive].
Proof. by vm_compute. Qed.

Lemma requestFinished_handshake_witness :
  _status sample_connecting = Connecting
  /\ reply_error reply_nonce_7 = NoError
  /\ 2 <= qsize (handleResponse (reply_readAll reply_nonce_7))
  /\ _status (fst (@requestFinished sample_connection sample_connecting
                     reply_nonce_7 1040)) = Ready
  /\ snd (@requestFinished sample_connection sample_connecting
            reply_nonce_7 1040)
     = [DeleteLater 1%positive; EmitConnected]
  /\ _pingTime (fst (@requestFinished sample_connection sample_connecting
                       reply_nonce_7 1040)) = 40.
Proof.
  split; [reflexivity|]. split; [reflexivity|]. split; [by vm_compute|].
  destruct (@requestFinished_handshake sample_connection sample_connecting
              reply_nonce_7 1040) as [Hmatch _];
    [reflexivity | reflexivity | by vm_compute |].
  destruct Hmatch as (Hst & Hev & _ & Hping); [reflexivity|].
  split; [exact Hst|]. split; [exact Hev|].
  apply Hping; by vm_compute.
Defined.

(** A reply that parses, with the nonce 8 where the connection drew 7: the
    status stays Connecting and the only event is the release of the reply.
    No [error] is emitted. *)
Lemma requestFinished_wrong_nonce_is_silent :
  _status sample_connecting = Connecting
  /\ handleResponse (reply_readAll reply_nonce_8) = [8; 0; 0; 0]
  /\ @readPQFakeReply sample_connection [8; 0; 0; 0] = Some 8
  /\ _checkNonce sample_connecting = 7
  /\ @requestFinished sample_connection sample_connecting reply_nonce_8 1040
     = (set_requests ∅ sample_connecting, [DeleteLater 1%positive])
  /\ count_events is_signal
       (snd (@requestFinished sample_connection sample_connecting
               reply_nonce_8 1040)) = 0%nat.
Proof. by vm_compute. Qed.

Lemma handleError_code_witness :
  fst (@handleError sample_connection reply_404) = -404
  /\ fst (@handleError sample_connection reply_timeout) = -499.
Proof.
  split.
  - destruct (@handleError_code sample_connection reply_404) as [Hcode _].
    apply (Hcode 404); [reflexivity | by vm_compute].
  - destruct (@handleError_code sample_connection reply_timeout)
      as (_ & Hother & _).
    apply Hother. reflexivity.
Defined.

Lemma disconnectFromServer_idempotent_witness :
  finished_tracks_nothing sample_ready
  /\ @run sample_connection sample_qthelp sample_ready
       [OpDisconnectFromServer; OpDisconnectFromServer]
     = @run sample_connection sample_qthelp sample_ready
         [OpDisconnectFromServer]
  /\ _status (fst (disconnectFromServer sample_ready)) = Finished
  /\ _requests (fst (disconnectFromServer sample_ready)) = ∅.
Proof.
  assert (Hinv : finished_tracks_nothing sample_ready)
    by (intros Hf; discriminate Hf).
  split; [exact Hinv|].
  destruct (@disconnectFromServer_idempotent sample_connection sample_qthelp
              sample_ready Hinv) as (_ & Hrun & Hst & Hreq & _).
  split; [exact Hrun|]. split; [exact Hst | exact Hreq].
Defined.

Lemma sendData_short_buffer_witness :
  _status sample_ready <> Finished
  /\ qsize [1; 2] < 3
  /\ fst (@sendData sample_connection sample_qthelp sample_ready [1; 2]
            9%positive) = sample_ready
  /\ snd (@sendData sample_connection sample_qthelp sample_ready [1; 2]
            9%positive) = [EmitError (-499)].
Proof.
  split; [discriminate|]. split; [by vm_compute|].
  destruct (@sendData_short_buffer sample_connection sample_qthelp
              sample_ready [1; 2] 9%positive) as (Hc & Ht & _);
    [discriminate | by vm_compute |].
  split; [exact Hc | exact Ht].
Defined.

Lemma requestFinished_untracked_failure_witness :
  reply_error reply_timeout <> NoError
  /\ (reply_handle reply_timeout ∉ _requests sample_ready)
  /\ fst (@requestFinished sample_connection sample_ready reply_timeout 50)
     = sample_ready
  /\ count_events is_signal
       (snd (@requestFinished sample_connection sample_ready reply_timeout
               50)) = 0%nat.
Proof.
  assert (Hnotin : reply_handle reply_timeout ∉ _requests sample_ready).
  { apply (bool_decide_unpack _). by vm_compute. }
  split; [discriminate|]. split; [exact Hnotin|].
  destruct (@requestFinished_untracked_failure sample_connection sample_ready
              reply_timeout 50) as (Hc & Hn & _);
    [discriminate | exact Hnotin |].
  split; [exact Hc | exact Hn].
Defined.

Lemma url_forces_port_80_witness :
  no_low_marker "2001:db8::1"
  /\ @url sample_qthelp sample_ready = "http://[2001:db8::1]:80/api"
  /\ @url sample_qthelp
       (fst (@connectToServer sample_connection sample_qthelp
               sample_connecting "203.0.113.5" 443 [] 2 1000 3%positive))
     = "http://203.0.113.5:80/api".
Proof.
  split; [exact I|]. split.
  - destruct (@url_forces_port_80 sample_connection sample_qthelp sample_ready
                "2001:db8::1") as [Hurl _]; [exact I|].
    apply Hurl. reflexivity.
  - destruct (@url_forces_port_80 sample_connection sample_qthelp
                sample_connecting "203.0.113.5") as [_ Hconnect]; [exact I|].
    apply (Hconnect 443 [] 2 1000 3%positive).
Defined.

(** C9, where the code falls short of it: the URL is to be
    [http://[host]:80/api] for an IPv6 literal and [http://host:80/api]
    otherwise, for every host, with 80 for its port.  [url] means to put the
    address at [%1] and the port 80 at [%2], but chains the two [arg] calls,
    so that the second one also sees the markers the address brought in.
    For the scoped IPv6 literal [fe80::1%2] it replaces the marker of the
    address together with the pattern's and builds
    [http://[fe80::180]:80/api], not [http://[fe80::1%2]:80/api]; for the
    address [%1] it puts 80 in place of the host and leaves [%2] where the
    port should be: [http://80:%2/api]. *)
Lemma url_marker_in_address :
  @url sample_qthelp (set_address "fe80::1%2" sample_connecting)
  = "http://[fe80::180]:80/api"
  /\ @spec_url sample_qthelp "fe80::1%2" = "http://[fe80::1%2]:80/api"
  /\ @url sample_qthelp (set_address "fe80::1%2" sample_connecting)
     <> @spec_url sample_qthelp "fe80::1%2"
  /\ @url sample_qthelp (set_address "%1" sample_connecting)
     = "http://80:%2/api"
  /\ @spec_url sample_qthelp "%1" = "http://%1:80/api".
Proof. by vm_compute. Qed.

(** An address with a zone name keeps its ['%']: no marker is made of it. *)
Example url_zone_name :
  no_low_marker "fe80::1%eth0"
  /\ @url sample_qthelp (set_address "fe80::1%eth0" sample_connecting)
     = "http://[fe80::1%eth0]:80/api".
Proof. by vm_compute. Qed.

(** ** Decoding what was encoded *)

Lemma byte_to_of_Z z : byte_to_Z (byte_of_Z z) = z mod 256.
Proof.
  unfold byte_of_Z, byte_to_Z.
  pose proof (Z.mod_pos_bound z 256 ltac:(lia)) as Hb.
  destruct (Byte.of_N (Z.to_N (z mod 256))) as [b|] eqn:Hof.
  - apply Byte.to_of_N in Hof. rewrite Hof. lia.
  - apply Byte.of_N_None_iff in Hof. lia.
Qed.

Lemma word_of_bytes_of_word w :
  int32_range w ->
  word_of_bytes (byte_of_Z w) (byte_of_Z (w ≫ 8)) (byte_of_Z (w ≫ 16))
                (byte_of_Z (w ≫ 24)) = w.
Proof.
  unfold int32_range, word_of_bytes. intros Hw.
  rewrite !byte_to_of_Z, !Z.shiftr_div_pow2 by lia.
  change (2 ^ 31) with 2147483648 in *.
  change (2 ^ 8) with 256. change (2 ^ 16) with 65536.
  change (2 ^ 24) with 16777216.
  assert (Hsum : w mod 256 + 256 * ((w / 256) mod 256)
                 + 65536 * ((w / 65536) mod 256)
                 + 16777216 * ((w / 16777216) mod 256) = w mod 4294967296).
  { Z.to_euclidean_division_equations. lia. }
  rewrite Hsum. unfold to_int32, to_signed.
  change (2 ^ (32 - 1)) with 2147483648. change (2 ^ 32) with 4294967296.
  Z.to_euclidean_division_equations. lia.
Qed.

Lemma load_words_bytes_of_buffer (l : mtpBuffer) :
  Forall int32_range l -> load_words (length l) (bytes_of_buffer l) = l.
Proof.
  induction 1 as [|w l Hw Hl IH]; [done|].
  unfold bytes_of_buffer in *. cbn [flat_map length load_words].
  change (bytes_of_word w) with
    [byte_of_Z w; byte_of_Z (w ≫ 8); byte_of_Z (w ≫ 16); byte_of_Z (w ≫ 24)].
  cbn [app nth drop]. by rewrite ?drop_0, IH, word_of_bytes_of_word.
Qed.

Lemma handleResponse_well_formed (response : QByteArray) :
  response <> [] -> qsize response mod 4 = 0 -> 8 <= qsize response ->
  handleResponse response
  = load_words (Z.to_nat (qsize response / 4)) response.
Proof.
  intros Hne Hmod Hlen. unfold handleResponse.
  rewrite bool_decide_eq_false_2 by done. rewrite land_3_mod_4.
  destruct (Z.eqb_spec (qsize response mod 4) 0); [|lia].
  destruct (Z.ltb_spec (qsize response) 8); [lia|]. cbn [negb orb].
  rewrite Z.shiftr_div_pow2 by lia. done.
Qed.

Lemma handleResponse_malformed (response : QByteArray) :
  response <> [] -> qsize response mod 4 <> 0 \/ qsize response < 8 ->
  handleResponse response = [-500].
Proof.
  intros Hne Hbad. unfold handleResponse.
  rewrite bool_decide_eq_false_2 by done. rewrite land_3_mod_4.
  destruct (Z.eqb_spec (qsize response mod 4) 0),
    (Z.ltb_spec (qsize response) 8); done || lia.
Qed.

Lemma bytes_of_buffer_qsize (l : mtpBuffer) :
  qsize (bytes_of_buffer l) = 4 * qsize l.
Proof. unfold qsize. rewrite bytes_of_buffer_length. lia. Qed.

Lemma handleResponse_image (l : mtpBuffer) :
  Forall int32_range l -> 2 <= qsize l ->
  handleResponse (bytes_of_buffer l) = l.
Proof.
  intros Hrange Hlen. pose proof (bytes_of_buffer_qsize l) as Hsize.
  rewrite handleResponse_well_formed.
  - rewrite Hsize. replace (4 * qsize l / 4) with (qsize l)
      by (rewrite Z.mul_comm, Z.div_mul; lia).
    unfold qsize. rewrite Nat2Z.id. by apply load_words_bytes_of_buffer.
  - intros Hnil. rewrite Hnil in Hsize. unfold qsize in *.
    cbn [length] in Hsize. lia.
  - rewrite Hsize, Z.mul_comm. apply Z.mod_mul. lia.
  - lia.
Qed.

(** X1: decoding undoes encoding, except for one-word frames.  For a buffer
    of [mtpPrime] values, [handleResponse] applied to the buffer's memory
    image gives the buffer back when it has two words or more, and the empty
    frame for the empty buffer; the image of a one-word buffer, four bytes,
    decodes to [-500] whatever the word. *)
Theorem handleResponse_bytes_of_buffer (buffer : mtpBuffer) :
  Forall int32_range buffer ->
  (2 <= qsize buffer -> handleResponse (bytes_of_buffer buffer) = buffer)
  /\ (qsize buffer = 1 -> handleResponse (bytes_of_buffer buffer) = [-500])
  /\ (qsize buffer = 0 -> handleResponse (bytes_of_buffer buffer) = []).
Proof.
  intros Hrange. pose proof (bytes_of_buffer_qsize buffer) as Hsize.
  repeat split.
  - by apply handleResponse_image.
  - intros Hlen. apply handleResponse_malformed; [|lia].
    intros Hnil. rewrite Hnil in Hsize. unfold qsize in *.
    cbn [length] in Hsize. lia.
  - intros Hlen. destruct buffer; [done|]. unfold qsize in Hlen.
    cbn [length] in Hlen. lia.
Qed.

Section Further.
Context `{AbstractConnection} `{QtHelp}.

(** ** What is sent can be read back *)

(** X2: the body [sendData] posts for a buffer made of two header words, a
    payload of two words or more and one trailing word is the payload's
    memory image: exactly one request is posted, its Content-Length is four
    times the payload's word count, and [handleResponse] decodes its body to
    the payload. *)
Theorem sendData_body_decodes (c : HttpConnection) (h1 h2 t : mtpPrime)
    (payload : mtpBuffer) (reply : handle) :
  _status c <> Finished -> Forall int32_range payload ->
  2 <= qsize payload -> qsize payload * 4 < 2 ^ 31 ->
  exists body,
    snd (sendData c (h1 :: h2 :: payload ++ [t]) reply)
    = [Post (url c) (4 * qsize payload) "application/x-www-form-urlencoded"
            body reply]
    /\ handleResponse body = payload.
Proof.
  intros Hst Hrange Hlen Hfit. exists (bytes_of_buffer payload).
  split; [|by apply handleResponse_image].
  unfold sendData. rewrite bool_decide_eq_false_2 by done.
  assert (Hsize : qsize (h1 :: h2 :: payload ++ [t]) = qsize payload + 3).
  { unfold qsize. cbn [length]. rewrite length_app. cbn [length]. lia. }
  rewrite Hsize. destruct (Z.ltb_spec (qsize payload + 3) 3); [lia|].
  rewrite requestSize_exact by lia. cbn [snd].
  change (drop 2 (h1 :: h2 :: payload ++ [t])) with (payload ++ [t]).
  replace (qsize payload + 3 - 3) with (qsize payload) by lia.
  replace (Z.to_nat (qsize payload * 4)) with (4 * length payload)%nat
    by (unfold qsize; lia).
  rewrite take_bytes_of_buffer, take_app_length.
  by rewrite (Z.mul_comm 4).
Qed.

(** ** Successful completions *)

Lemma load_words_length k (bytes : QByteArray) :
  length (load_words k bytes) = k.
Proof.
  revert bytes. induction k as [|k IH]; intros bytes; [done|].
  cbn [load_words length]. by rewrite IH.
Qed.

(** A one-word frame out of [handleResponse] is the frame [-500]. *)
Lemma handleResponse_one_word_frame (response : QByteArray) :
  qsize (handleResponse response) = 1 -> handleResponse response = [-500].
Proof.
  intros Hone. destruct (decide (response = [])) as [-> | Hne]; [done|].
  destruct (decide (qsize response mod 4 = 0 /\ 8 <= qsize response))
    as [[Hmod Hlen] | Hbad].
  - rewrite handleResponse_well_formed in Hone by done.
    unfold qsize at 1 in Hone. rewrite load_words_length in Hone.
    pose proof (Z.div_le_lower_bound (qsize response) 4 2). lia.
  - apply handleResponse_malformed; [done | lia].
Qed.

(** The method past its first two tests, for a reply without error. *)
Lemma requestFinished_success (c : HttpConnection) (reply : Reply) (now : Z) :
  _status c <> Finished -> reply_error reply = NoError ->
  requestFinished c reply now
  = let h := reply_handle reply in
    let c1 := set_requests (_requests c ∖ {[h]}) c in
    let data := handleResponse (reply_readAll reply) in
    if qsize data =? 1 then (c1, [DeleteLater h; EmitError (nth 0 data 0)])
    else if negb (bool_decide (data = [])) then
      if bool_decide (_status c = Ready) then
        (set_receivedQueue (_receivedQueue c ++ [data]) c1,
         [DeleteLater h; EmitReceivedData])
      else
        match readPQFakeReply data with
        | Some vnonce =>
            if bool_decide (vnonce = _checkNonce c) then
              (set_pingTime (to_int64 (now - _pingTime c))
                 (set_status Ready c1),
               [DeleteLater h; EmitConnected])
            else (c1, [DeleteLater h])
        | None => (c1, [DeleteLater h; EmitError kErrorCodeOther])
        end
    else (c1, [DeleteLater h]).
Proof.
  intros Hst Herr. unfold requestFinished.
  rewrite (bool_decide_eq_false_2 (_status c = Finished)) by done.
  by rewrite (bool_decide_eq_true_2 (reply_error reply = NoError)) by done.
Qed.

(** X3: while Ready, a successful reply whose body has a length that is a
    multiple of 4 and at least 8 is delivered: its frame, [length / 4] words
    with the bytes of the body, is put at the end of [_receivedQueue] behind
    the frames already there; exactly one signal is emitted, [receivedData];
    the status stays Ready and the reply is no longer tracked. *)
Theorem requestFinished_delivers_frame (c : HttpConnection) (reply : Reply)
    (now : Z) :
  _status c = Ready -> reply_error reply = NoError ->
  qsize (reply_readAll reply) mod 4 = 0 -> 8 <= qsize (reply_readAll reply) ->
  let c' := fst (requestFinished c reply now) in
  let frame := handleResponse (reply_readAll reply) in
  _receivedQueue c' = _receivedQueue c ++ [frame]
  /\ bytes_of_buffer frame = reply_readAll reply
  /\ qsize frame = qsize (reply_readAll reply) / 4
  /\ snd (requestFinished c reply now)
     = [DeleteLater (reply_handle reply); EmitReceivedData]
  /\ _status c' = Ready
  /\ _requests c' = _requests c ∖ {[reply_handle reply]}.
Proof.
  intros Hst Herr Hmod Hlen c' frame.
  assert (Hne : reply_readAll reply <> []).
  { intros Hnil. rewrite Hnil in Hlen. unfold qsize in Hlen.
    cbn [length] in Hlen. lia. }
  assert (Hframe : frame
    = load_words (Z.to_nat (qsize (reply_readAll reply) / 4))
                 (reply_readAll reply))
    by by apply handleResponse_well_formed.
  assert (Hbytes : length (reply_readAll reply)
    = (4 * Z.to_nat (qsize (reply_readAll reply) / 4))%nat).
  { unfold qsize in *.
    pose proof (Z.div_mod (Z.of_nat (length (reply_readAll reply))) 4). lia. }
  destruct (load_words_image _ _ Hbytes) as [Himg Hk].
  assert (Hsize : qsize frame = qsize (reply_readAll reply) / 4).
  { rewrite Hframe. unfold qsize at 1. rewrite Hk.
    pose proof (Z.div_pos (qsize (reply_readAll reply)) 4). lia. }
  assert (Hdiv : 2 <= qsize (reply_readAll reply) / 4)
    by (apply Z.div_le_lower_bound; lia).
  subst c'. rewrite requestFinished_success by (done || by rewrite Hst).
  cbn zeta. fold frame.
  destruct (Z.eqb_spec (qsize frame) 1); [lia|].
  rewrite (bool_decide_eq_false_2 (frame = [])).
  2:{ intros Hnil. rewrite Hnil in Hsize. unfold qsize in Hsize at 1.
      cbn [length] in Hsize. lia. }
  rewrite (bool_decide_eq_true_2 (_status c = Ready)) by done.
  cbn [negb fst snd _receivedQueue set_receivedQueue set_requests _status
       _requests].
  repeat split; try done. by rewrite Hframe.
Qed.

(** X4: the error codes of successful replies.  A successful reply whose
    body is not empty and has a length that is not a multiple of 4, or below
    8, makes the method emit [error(-500)] and nothing else, in the
    Connecting and in the Ready state alike, and untrack the reply.  No other
    code comes from a response body: whatever a successful reply carries,
    every [error] the method emits has the code [-500] or, on a Connecting
    connection only, [kErrorCodeOther]; the word of a four-byte body is
    never passed on. *)
Theorem requestFinished_success_error_codes (c : HttpConnection)
    (reply : Reply) (now : Z) :
  reply_error reply = NoError ->
  (_status c <> Finished -> reply_readAll reply <> [] ->
   qsize (reply_readAll reply) mod 4 <> 0 \/ qsize (reply_readAll reply) < 8 ->
   requestFinished c reply now
   = (set_requests (_requests c ∖ {[reply_handle reply]}) c,
      [DeleteLater (reply_handle reply); EmitError (-500)]))
  /\ (forall code, code ∈ error_codes (snd (requestFinished c reply now)) ->
        code = -500 \/ (_status c = Connecting /\ code = kErrorCodeOther)).
Proof.
  intros Herr. split.
  - intros Hst Hne Hbad. rewrite requestFinished_success by done.
    by rewrite handleResponse_malformed.
  - intros code. destruct (decide (_status c = Finished)) as [Hf | Hst].
    { unfold requestFinished. rewrite bool_decide_eq_true_2 by done.
      cbn. by intros ?%elem_of_nil. }
    rewrite requestFinished_success by done. cbn zeta.
    destruct (Z.eqb_spec (qsize (handleResponse (reply_readAll reply))) 1)
      as [Hone | Hmany].
    { rewrite (handleResponse_one_word_frame _ Hone). cbn.
      intros ->%list_elem_of_singleton. by left. }
    destruct (bool_decide (handleResponse (reply_readAll reply) = []));
      cbn [negb]; [by intros ?%elem_of_nil|].
    case_bool_decide as Hready; [by intros ?%elem_of_nil|].
    destruct (readPQFakeReply _) as [vnonce|].
    + case_bool_decide; by intros ?%elem_of_nil.
    + cbn. intros ->%list_elem_of_singleton. right. split; [|done].
      by destruct (_status c).
Qed.

(** X5: a successful reply with an empty body is dropped without a word: in
    every state but Finished the method untracks and releases the reply,
    emits no signal, and leaves status, queue and latency as they were. *)
Theorem requestFinished_empty_response (c : HttpConnection) (reply : Reply)
    (now : Z) :
  _status c <> Finished -> reply_error reply = NoError ->
  reply_readAll reply = [] ->
  requestFinished c reply now
  = (set_requests (_requests c ∖ {[reply_handle reply]}) c,
     [DeleteLater (reply_handle reply)])
  /\ count_events is_signal (snd (requestFinished c reply now)) = 0%nat.
Proof.
  intros Hst Herr Hempty. rewrite requestFinished_success by done.
  by rewrite Hempty.
Qed.

(** ** The tracked replies *)

Lemma requestFinished_requests (c : HttpConnection) (reply : Reply) (now : Z) :
  _status c <> Finished ->
  _requests (fst (requestFinished c reply now))
  = _requests c ∖ {[reply_handle reply]}.
Proof.
  intros Hst. unfold requestFinished.
  rewrite (bool_decide_eq_false_2 (_status c = Finished)) by done.
  repeat (case_bool_decide || case_match); cbn; try done.
  symmetry. by apply difference_disjoint_L, disjoint_singleton_r.
Qed.

(** X6: [requestFinished] untracks the reply it is called for and no other.
    On a connection that is not Finished the tracked set afterwards is the
    set before without the reply's handle, whether the reply succeeded or
    failed; so on every connection that satisfies the invariant the handle
    is not tracked afterwards, and every other handle is tracked exactly if
    it was. *)
Theorem requestFinished_untracks_exactly (c : HttpConnection) (reply : Reply)
    (now : Z) :
  finished_tracks_nothing c ->
  (_status c <> Finished ->
   _requests (fst (requestFinished c reply now))
   = _requests c ∖ {[reply_handle reply]})
  /\ (reply_handle reply ∉ _requests (fst (requestFinished c reply now)))
  /\ (forall h, h <> reply_handle reply ->
        h ∈ _requests (fst (requestFinished c reply now))
        <-> h ∈ _requests c).
Proof.
  intros Hinv. split; [apply requestFinished_requests|].
  destruct (decide (_status c = Finished)) as [Hf | Hst].
  - unfold requestFinished. rewrite bool_decide_eq_true_2 by done.
    cbn [fst]. rewrite (Hinv Hf). split; [apply not_elem_of_empty | done].
  - rewrite requestFinished_requests by done. split.
    + intros [_ Hn]%elem_of_difference. apply Hn. by apply elem_of_singleton.
    + intros h Hne. rewrite elem_of_difference, elem_of_singleton. tauto.
Qed.

(** X7: tracking a reply and completing it cancel out.  After a
    well-formed [sendData] the new reply is tracked and [needHttpWait] is
    false; when that reply completes, in whatever way, the tracked set is
    again the one before the send, and so is the answer of [needHttpWait]. *)
Theorem sendData_then_requestFinished (c : HttpConnection)
    (buffer : mtpBuffer) (reply : Reply) (now : Z) :
  _status c <> Finished -> 3 <= qsize buffer ->
  reply_handle reply ∉ _requests c ->
  let c1 := fst (sendData c buffer (reply_handle reply)) in
  let c2 := fst (requestFinished c1 reply now) in
  reply_handle reply ∈ _requests c1
  /\ needHttpWait c1 = false
  /\ _requests c2 = _requests c
  /\ needHttpWait c2 = needHttpWait c.
Proof.
  intros Hst Hlen Hnew c1 c2.
  assert (Hreq1 : _requests c1 = {[reply_handle reply]} ∪ _requests c).
  { subst c1. unfold sendData. rewrite bool_decide_eq_false_2 by done.
    by destruct (Z.ltb_spec (qsize buffer) 3); [lia|]. }
  assert (Hst1 : _status c1 <> Finished)
    by (subst c1; by rewrite sendData_status).
  assert (Hreq2 : _requests c2 = _requests c).
  { subst c2. rewrite requestFinished_requests, Hreq1 by done.
    apply set_eq. intros h.
    rewrite elem_of_difference, elem_of_union, elem_of_singleton.
    split; [tauto|]. intros Hin. split; [tauto|]. by intros ->. }
  split; [rewrite Hreq1; apply elem_of_union_l; by apply elem_of_singleton|].
  split; [|split; [done | unfold needHttpWait; by rewrite Hreq2]].
  unfold needHttpWait. apply bool_decide_eq_false_2. rewrite Hreq1.
  intros Hsize%size_empty_iff.
  apply (not_elem_of_empty (C := gset handle) (reply_handle reply)).
  rewrite <- Hsize. apply elem_of_union_l. by apply elem_of_singleton.
Qed.

(** ** Whole runs *)

Lemma count_teardown_none (p : Event -> bool) (l : list handle) :
  (forall r, p (Abort r) = false) -> (forall r, p (DeleteLater r) = false) ->
  count_events p
    (flat_map (fun request => [Abort request; DeleteLater request]) l) = 0%nat.
Proof.
  intros Ha Hd. induction l as [|r l IH]; [done|].
  cbn [flat_map]. rewrite count_events_app, IH.
  unfold count_events. cbn [List.filter]. by rewrite Ha, Hd.
Qed.

(** The events left to a Finished connection: attaching to the manager's
    signal and setting its proxy. *)
Lemma step_finished (c : HttpConnection) (op : Op) :
  _status c = Finished ->
  _status (fst (step c op)) = Finished
  /\ _requests (fst (step c op)) = _requests c
  /\ _receivedQueue (fst (step c op)) = _receivedQueue c
  /\ Forall (fun e => e = ConnectFinished \/ e = SetProxy) (snd (step c op)).
Proof.
  intros Hf.
  destruct op as [address port secret dcId now reply | buffer reply
                 | reply now | | ]; cbn [step].
  - unfold connectToServer. rewrite sendData_finished by done.
    cbn. repeat split; try done. by repeat constructor; left.
  - rewrite sendData_finished by done. by repeat split.
  - unfold requestFinished. rewrite bool_decide_eq_true_2 by done.
    by repeat split.
  - unfold disconnectFromServer. rewrite bool_decide_eq_true_2 by done.
    by repeat split.
  - cbn. repeat split; try done. by repeat constructor; right.
Qed.

Lemma run_finished (ops : list Op) (c : HttpConnection) :
  _status c = Finished ->
  _status (fst (run c ops)) = Finished
  /\ _requests (fst (run c ops)) = _requests c
  /\ _receivedQueue (fst (run c ops)) = _receivedQueue c
  /\ Forall (fun e => e = ConnectFinished \/ e = SetProxy) (snd (run c ops)).
Proof.
  revert c. induction ops as [|op rest IH]; intros c Hf; [done|].
  rewrite run_cons. cbn [fst snd].
  destruct (step_finished c op Hf) as (Hs & Hr & Hq & Ht).
  destruct (IH _ Hs) as (Hs' & Hr' & Hq' & Ht').
  rewrite Hs', Hr', Hq', Hr, Hq. repeat split; try done.
  by apply Forall_app.
Qed.

Lemma count_events_quiet (p : Event -> bool) (t : list Event) :
  p ConnectFinished = false -> p SetProxy = false ->
  Forall (fun e => e = ConnectFinished \/ e = SetProxy) t ->
  count_events p t = 0%nat.
Proof.
  intros Hc Hp Ht. unfold count_events.
  induction Ht as [|e t [-> | ->] _ IH]; cbn [List.filter];
    [done | by rewrite Hc | by rewrite Hp].
Qed.

(** X8: nothing comes out of a Finished connection.  Over every sequence of
    calls on a Finished connection the status stays Finished, the tracked
    set and the queue stay as they are, and the only events are
    [connectToServer] attaching to the manager's signal and
    [setProxyOverride] setting the proxy: no request is posted, no reply
    aborted or released, no signal emitted. *)
Theorem run_finished_is_silent (c : HttpConnection) (ops : list Op) :
  _status c = Finished ->
  _status (fst (run c ops)) = Finished
  /\ _requests (fst (run c ops)) = _requests c
  /\ _receivedQueue (fst (run c ops)) = _receivedQueue c
  /\ Forall (fun e => e = ConnectFinished \/ e = SetProxy) (snd (run c ops))
  /\ count_events is_post (snd (run c ops)) = 0%nat
  /\ count_events is_signal (snd (run c ops)) = 0%nat.
Proof.
  intros Hf. destruct (run_finished ops c Hf) as (Hs & Hr & Hq & Ht).
  repeat split; try done; by apply count_events_quiet.
Qed.

Lemma step_checkNonce (c : HttpConnection) (op : Op) :
  _checkNonce (fst (step c op)) = _checkNonce c.
Proof.
  destruct op as [address port secret dcId now reply | buffer reply
                 | reply now | | ]; cbn [step].
  - unfold connectToServer, sendData. cbn [_status set_pingTime set_address].
    case_bool_decide; [done|]. by destruct (_ <? _).
  - unfold sendData. case_bool_decide; [done|]. by destruct (_ <? _).
  - unfold requestFinished. by repeat (case_bool_decide || case_match).
  - unfold disconnectFromServer. by case_bool_decide.
  - done.
Qed.

(** X9: [_checkNonce] is fixed for the life of the connection: no sequence
    of calls changes it. *)
Theorem run_checkNonce (c : HttpConnection) (ops : list Op) :
  _checkNonce (fst (run c ops)) = _checkNonce c.
Proof.
  revert c. induction ops as [|op rest IH]; intros c; [done|].
  rewrite run_cons. cbn [fst]. by rewrite IH, step_checkNonce.
Qed.

Lemma run_finished_status (ops : list Op) (c : HttpConnection) :
  _status c = Finished -> _status (fst (run c ops)) = Finished.
Proof.
  revert c. induction ops as [|op rest IH]; intros c Hf; [done|].
  rewrite run_cons. cbn [fst]. apply IH. by apply step_finished.
Qed.

Lemma run_ready_status (ops : list Op) (c : HttpConnection) :
  _status c = Ready -> _status (fst (run c ops)) <> Connecting.
Proof.
  revert c. induction ops as [|op rest IH]; intros c Hr.
  - cbn. by rewrite Hr.
  - rewrite run_cons. cbn [fst].
    destruct (step_status c op) as [Heq | [[Hc _] | [_ Hf]]].
    + apply IH. by rewrite Heq.
    + by rewrite Hr in Hc.
    + by rewrite run_finished_status.
Qed.

(** The one call that makes a Connecting connection Ready. *)
Lemma step_becomes_ready (c : HttpConnection) (op : Op) :
  _status c = Connecting -> _status (fst (step c op)) = Ready ->
  exists reply now,
    op = OpRequestFinished reply now
    /\ reply_error reply = NoError
    /\ readPQFakeReply (handleResponse (reply_readAll reply))
       = Some (_checkNonce c)
    /\ snd (step c op) = [DeleteLater (reply_handle reply); EmitConnected].
Proof.
  intros Hc Hr.
  destruct op as [address port secret dcId now reply | buffer reply
                 | reply now | | ]; cbn [step] in *.
  - rewrite connectToServer_status, Hc in Hr. done.
  - rewrite sendData_status, Hc in Hr. done.
  - exists reply, now. split; [done|].
    destruct (decide (reply_error reply = NoError)) as [Herr | Herr].
    + split; [done|]. revert Hr.
      rewrite requestFinished_success by (done || by rewrite Hc).
      cbn zeta. rewrite Hc.
      rewrite (bool_decide_eq_false_2 (Connecting = Ready)) by done.
      destruct (_ =? 1); [cbn; by rewrite Hc|].
      destruct (negb _); [|cbn; by rewrite Hc].
      destruct (readPQFakeReply _) as [vnonce|]; [|cbn; by rewrite Hc].
      case_bool_decide as Hnonce; [by subst | cbn; by rewrite Hc].
    + revert Hr. unfold requestFinished. rewrite Hc.
      rewrite (bool_decide_eq_false_2 (Connecting = Finished)) by done.
      rewrite (bool_decide_eq_false_2 (reply_error reply = NoError)) by done.
      case_bool_decide; cbn; by rewrite Hc.
  - rewrite disconnectFromServer_status in Hr. done.
  - cbn in Hr. by rewrite Hc in Hr.
Qed.

(** X10: a connection becomes Ready only on proof that the tunnel reaches
    the service.  When a run of calls takes a Connecting connection to the
    Ready state, one of the calls is the completion of a reply without
    error whose frame [readPQFakeReply] parses to the connection's own
    [_checkNonce]. *)
Theorem run_ready_needs_nonce (c : HttpConnection) (ops : list Op) :
  _status c = Connecting -> _status (fst (run c ops)) = Ready ->
  exists reply now,
    In (OpRequestFinished reply now) ops
    /\ reply_error reply = NoError
    /\ readPQFakeReply (handleResponse (reply_readAll reply))
       = Some (_checkNonce c).
Proof.
  revert c. induction ops as [|op rest IH]; intros c Hc Hr.
  - cbn in Hr. by rewrite Hc in Hr.
  - rewrite run_cons in Hr. cbn [fst] in Hr.
    destruct (step_status c op) as [Heq | [[_ Hready] | [_ Hf]]].
    + destruct (IH (fst (step c op))) as (reply & now & Hin & Herr & Hnonce);
        [by rewrite Heq | done |].
      exists reply, now. split; [by right|]. split; [done|].
      by rewrite Hnonce, step_checkNonce.
    + destruct (step_becomes_ready c op Hc Hready)
        as (reply & now & -> & Herr & Hnonce & _).
      exists reply, now. split; [by left | done].
    + by rewrite run_finished_status in Hr.
Qed.

(** What a call adds to the count of [connected] signals. *)
Lemma step_connected_count (c : HttpConnection) (op : Op) :
  count_events is_connected_signal (snd (step c op))
  = (if bool_decide (_status c = Connecting
                     /\ _status (fst (step c op)) = Ready)
     then 1 else 0)%nat.
Proof.
  destruct op as [address port secret dcId now reply | buffer reply
                 | reply now | | ]; cbn [step].
  - rewrite connectToServer_status.
    rewrite bool_decide_eq_false_2 by (intros [-> ?]; done).
    unfold connectToServer, sendData. cbn [_status set_pingTime set_address].
    case_bool_decide; [done|]. by destruct (_ <? _).
  - rewrite sendData_status.
    rewrite bool_decide_eq_false_2 by (intros [-> ?]; done).
    unfold sendData. case_bool_decide; [done|]. by destruct (_ <? _).
  - assert (Hsame : forall (c' : HttpConnection) t,
      _status c' = _status c ->
      count_events is_connected_signal t = 0%nat ->
      count_events is_connected_signal (snd (c', t))
      = (if bool_decide (_status c = Connecting
                         /\ _status (fst (c', t)) = Ready)
         then 1 else 0)%nat).
    { intros c' t Hst Ht. cbn [fst snd]. rewrite Ht, Hst.
      by rewrite bool_decide_eq_false_2 by (intros [? ?]; congruence). }
    destruct (decide (_status c = Finished)) as [Hf | Hst].
    { unfold requestFinished. rewrite bool_decide_eq_true_2 by done.
      by apply Hsame. }
    destruct (decide (reply_error reply = NoError)) as [Herr | Herr].
    + rewrite requestFinished_success by done. cbn zeta.
      destruct (_ =? 1); [by apply Hsame|].
      destruct (negb _); [|by apply Hsame].
      case_bool_decide as Hready; [by apply Hsame|].
      destruct (readPQFakeReply _) as [vnonce|]; [|by apply Hsame].
      case_bool_decide; [|by apply Hsame].
      cbn [fst snd _status set_pingTime set_status].
      rewrite bool_decide_eq_true_2; [done|].
      split; [by destruct (_status c) | done].
    + unfold requestFinished.
      rewrite (bool_decide_eq_false_2 (_status c = Finished)) by done.
      rewrite (bool_decide_eq_false_2 (reply_error reply = NoError)) by done.
      case_bool_decide; by apply Hsame.
  - rewrite disconnectFromServer_status.
    rewrite bool_decide_eq_false_2 by (intros [? ?]; done).
    unfold disconnectFromServer. case_bool_decide; [done|]. cbn [snd].
    rewrite count_events_app, count_teardown_none by done. done.
  - cbn. by rewrite bool_decide_eq_false_2 by (intros [-> ?]; done).
Qed.

(** X11: [connected] is emitted at most once in the life of a connection.
    Over every sequence of calls the signal is emitted at most once, never
    on a connection that has left the Connecting state, and exactly once on
    a run that takes a Connecting connection to Ready. *)
Theorem run_connected_once (c : HttpConnection) (ops : list Op) :
  (count_events is_connected_signal (snd (run c ops)) <= 1)%nat
  /\ (_status c <> Connecting ->
      count_events is_connected_signal (snd (run c ops)) = 0%nat)
  /\ (_status c = Connecting -> _status (fst (run c ops)) = Ready ->
      count_events is_connected_signal (snd (run c ops)) = 1%nat).
Proof.
  assert (Hleft : forall ops c, _status c <> Connecting ->
    count_events is_connected_signal (snd (run c ops)) = 0%nat).
  { clear c ops. induction ops as [|op rest IH]; intros c Hc; [done|].
    rewrite run_cons. cbn [snd].
    rewrite count_events_app, step_connected_count.
    rewrite bool_decide_eq_false_2 by (intros [? ?]; done).
    apply IH. destruct (step_status c op) as [Heq | [[? _] | [_ Hf]]];
      [by rewrite Heq | done | by rewrite Hf]. }
  assert (Hcount : forall ops c, _status c = Connecting ->
    (count_events is_connected_signal (snd (run c ops)) <= 1)%nat
    /\ (_status (fst (run c ops)) = Ready ->
        count_events is_connected_signal (snd (run c ops)) = 1%nat)).
  { clear c ops. induction ops as [|op rest IH]; intros c Hc.
    - cbn. split; [lia|]. by rewrite Hc.
    - rewrite run_cons. cbn [fst snd].
      rewrite count_events_app, step_connected_count.
      destruct (step_status c op) as [Heq | [[_ Hready] | [_ Hf]]].
      + rewrite bool_decide_eq_false_2 by (intros [? Hr]; congruence).
        apply IH. by rewrite Heq.
      + rewrite bool_decide_eq_true_2 by done.
        rewrite Hleft by (by rewrite Hready). split; [lia | done].
      + rewrite bool_decide_eq_false_2 by (intros [? Hr]; congruence).
        rewrite Hleft by (by rewrite Hf). split; [lia|].
        by rewrite run_finished_status. }
  destruct (decide (_status c = Connecting)) as [Hc | Hc].
  - destruct (Hcount ops c Hc) as [Hle Hone]. by repeat split.
  - rewrite Hleft by done. repeat split; (lia || done).
Qed.

(** What a call does to the queue. *)
Lemma step_queue (c : HttpConnection) (op : Op) :
  exists added,
    _receivedQueue (fst (step c op)) = _receivedQueue c ++ added
    /\ length added
       = count_events is_receivedData_signal (snd (step c op))
    /\ Forall (fun frame => 2 <= qsize frame) added.
Proof.
  assert (Hsame : forall (c' : HttpConnection) t,
    _receivedQueue c' = _receivedQueue c ->
    count_events is_receivedData_signal t = 0%nat ->
    exists added,
      _receivedQueue (fst (c', t)) = _receivedQueue c ++ added
      /\ length added = count_events is_receivedData_signal (snd (c', t))
      /\ Forall (fun frame => 2 <= qsize frame) added).
  { intros c' t Hq Ht. exists []. cbn [fst snd].
    by rewrite Hq, Ht, app_nil_r. }
  destruct op as [address port secret dcId now reply | buffer reply
                 | reply now | | ]; cbn [step].
  - unfold connectToServer, sendData. cbn [_status set_pingTime set_address].
    case_bool_decide; [by apply Hsame|].
    destruct (_ <? _); by apply Hsame.
  - unfold sendData. case_bool_decide; [by apply Hsame|].
    destruct (_ <? _); by apply Hsame.
  - destruct (decide (_status c = Finished)) as [Hf | Hst].
    { unfold requestFinished. rewrite bool_decide_eq_true_2 by done.
      by apply Hsame. }
    destruct (decide (reply_error reply = NoError)) as [Herr | Herr].
    + rewrite requestFinished_success by done. cbn zeta.
      destruct (Z.eqb_spec (qsize (handleResponse (reply_readAll reply))) 1)
        as [Hone | Hmany]; [by apply Hsame|].
      case_bool_decide as Hnil; cbn [negb]; [by apply Hsame|].
      case_bool_decide as Hready.
      * exists [handleResponse (reply_readAll reply)]. cbn [fst snd].
        repeat split; try done. constructor; [|done].
        unfold qsize in *.
        destruct (handleResponse (reply_readAll reply)); [done|].
        cbn [length] in *. lia.
      * destruct (readPQFakeReply _) as [vnonce|]; [|by apply Hsame].
        case_bool_decide; by apply Hsame.
    + unfold requestFinished.
      rewrite (bool_decide_eq_false_2 (_status c = Finished)) by done.
      rewrite (bool_decide_eq_false_2 (reply_error reply = NoError)) by done.
      case_bool_decide; by apply Hsame.
  - unfold disconnectFromServer. case_bool_decide; [by apply Hsame|].
    apply Hsame; [done|]. by rewrite count_events_app, count_teardown_none.
  - by apply Hsame.
Qed.

(** X12: the inbound queue only grows, one frame per [receivedData].  Over
    every sequence of calls the queue afterwards is the queue before with
    frames added at its end; as many frames are added as [receivedData]
    signals are emitted; and every frame added has two words or more, so
    that neither an empty frame nor an error word is ever queued. *)
Theorem run_queue_grows (c : HttpConnection) (ops : list Op) :
  exists added,
    _receivedQueue (fst (run c ops)) = _receivedQueue c ++ added
    /\ length added
       = count_events is_receivedData_signal (snd (run c ops))
    /\ Forall (fun frame => 2 <= qsize frame) added.
Proof.
  revert c. induction ops as [|op rest IH]; intros c.
  - exists []. cbn. by rewrite app_nil_r.
  - rewrite run_cons. cbn [fst snd].
    destruct (step_queue c op) as (added1 & Hq1 & Hn1 & Hf1).
    destruct (IH (fst (step c op))) as (added2 & Hq2 & Hn2 & Hf2).
    exists (added1 ++ added2).
    rewrite Hq2, Hq1, count_events_app, length_app, Hn1, Hn2, app_assoc.
    repeat split; try done. by apply Forall_app.
Qed.

(** X13: one call, one thing at most.  Every call posts at most one request
    and emits at most one signal, and never both: a [sendData] or
    [connectToServer] that posts emits nothing, and one that emits
    [error] posts nothing. *)
Theorem step_one_effect (c : HttpConnection) (op : Op) :
  (count_events is_post (snd (step c op))
   + count_events is_signal (snd (step c op)) <= 1)%nat.
Proof.
  destruct op as [address port secret dcId now reply | buffer reply
                 | reply now | | ]; cbn [step].
  - unfold connectToServer, sendData. cbn [_status set_pingTime set_address].
    case_bool_decide; [cbn; lia|]. destruct (_ <? _); cbn; lia.
  - unfold sendData. case_bool_decide; [cbn; lia|].
    destruct (_ <? _); cbn; lia.
  - unfold requestFinished.
    repeat (case_bool_decide || case_match); cbn; lia.
  - unfold disconnectFromServer. case_bool_decide; [cbn; lia|]. cbn [snd].
    rewrite !count_events_app, !count_teardown_none by done. cbn. lia.
  - cbn. lia.
Qed.

(** ** Connecting *)

(** The post of [sendData] for a well-formed buffer. *)
Lemma sendData_post (c : HttpConnection) (buffer : mtpBuffer) (reply : handle) :
  _status c <> Finished -> 3 <= qsize buffer ->
  (qsize buffer - 3) * 4 < 2 ^ 31 ->
  sendData c buffer reply
  = (set_requests ({[reply]} ∪ _requests c) c,
     [Post (url c) ((qsize buffer - 3) * 4)
           "application/x-www-form-urlencoded"
           (bytes_of_buffer (take (length buffer - 3) (drop 2 buffer)))
           reply]).
Proof.
  intros Hst Hn Hfit. unfold sendData.
  rewrite bool_decide_eq_false_2 by assumption.
  destruct (Z.ltb_spec (qsize buffer) 3); [lia|].
  rewrite requestSize_exact by assumption.
  replace (Z.to_nat ((qsize buffer - 3) * 4))
    with (4 * (length buffer - 3))%nat by (unfold qsize in *; lia).
  by rewrite take_bytes_of_buffer.
Qed.

(** X14: what [connectToServer] does, by the state it is called in and the
    probe [preparePQFake] builds.  It always records the address and the
    time, attaches to the manager's signal first, and leaves status, nonce
    and queue alone.  Not Finished and a probe of three words or more: the
    probe without its first two words and its last is posted to the URL of
    the new address, and the reply tracked.  Not Finished and a shorter
    probe: nothing is posted and [error(kErrorCodeOther)] is emitted.
    Finished: nothing is posted and nothing emitted. *)
Theorem connectToServer_effects (c : HttpConnection) (address : string)
    (port : Z) (protocolSecret : list byte) (protocolDcId : Z) (now : Z)
    (reply : handle) :
  let probe := preparePQFake (_checkNonce c) in
  let r := connectToServer c address port protocolSecret protocolDcId now
                           reply in
  (_address (fst r) = address /\ _pingTime (fst r) = now
   /\ _status (fst r) = _status c /\ _checkNonce (fst r) = _checkNonce c
   /\ _receivedQueue (fst r) = _receivedQueue c)
  /\ (_status c <> Finished -> 3 <= qsize probe ->
      (qsize probe - 3) * 4 < 2 ^ 31 ->
      snd r = [ConnectFinished;
               Post (url (fst r)) ((qsize probe - 3) * 4)
                    "application/x-www-form-urlencoded"
                    (bytes_of_buffer (take (length probe - 3) (drop 2 probe)))
                    reply]
      /\ _requests (fst r) = {[reply]} ∪ _requests c)
  /\ (_status c <> Finished -> qsize probe < 3 ->
      snd r = [ConnectFinished; EmitError kErrorCodeOther]
      /\ _requests (fst r) = _requests c)
  /\ (_status c = Finished ->
      snd r = [ConnectFinished] /\ _requests (fst r) = _requests c).
Proof.
  intros probe r. subst r. unfold connectToServer.
  change (_checkNonce (set_address address c)) with (_checkNonce c).
  fold probe. set (c1 := set_pingTime now (set_address address c)).
  split; [|split; [|split]].
  - unfold sendData. case_bool_decide; [done|]. by destruct (_ <? _).
  - intros Hst Hlen Hfit. by rewrite sendData_post.
  - intros Hst Hlen. unfold sendData.
    rewrite bool_decide_eq_false_2 by done.
    by destruct (Z.ltb_spec (qsize probe) 3); [|lia].
  - intros Hf. by rewrite sendData_finished.
Qed.

(** X15: from probe to ping time.  A Connecting connection is not connected
    and reports a ping time of 0, also right after [connectToServer] at time
    [t0].  When the reply to the probe then completes without error at time
    [t1], not before [t0], with a frame of two words or more that parses to
    the connection's nonce, the connection is connected, emits [connected],
    and reports the ping time [t1 - t0]. *)
Theorem connect_then_handshake (c : HttpConnection) (address : string)
    (port : Z) (protocolSecret : list byte) (protocolDcId : Z) (t0 t1 : Z)
    (h : handle) (reply : Reply) :
  _status c = Connecting -> reply_error reply = NoError ->
  2 <= qsize (handleResponse (reply_readAll reply)) ->
  readPQFakeReply (handleResponse (reply_readAll reply))
  = Some (_checkNonce c) ->
  t0 <= t1 -> t1 - t0 < 2 ^ 63 ->
  let c1 := fst (connectToServer c address port protocolSecret protocolDcId
                                 t0 h) in
  let c2 := fst (requestFinished c1 reply t1) in
  isConnected c = false /\ pingTime c = 0
  /\ isConnected c1 = false /\ pingTime c1 = 0
  /\ isConnected c2 = true /\ pingTime c2 = t1 - t0
  /\ snd (requestFinished c1 reply t1)
     = [DeleteLater (reply_handle reply); EmitConnected].
Proof.
  intros Hc Herr Hlen Hparse Hmono Hfit c1 c2.
  assert (Hc1 : _status c1 = Connecting /\ _pingTime c1 = t0
                /\ _checkNonce c1 = _checkNonce c).
  { subst c1. unfold connectToServer, sendData.
    cbn [_status set_pingTime set_address]. rewrite Hc.
    rewrite (bool_decide_eq_false_2 (Connecting = Finished)) by done.
    by destruct (_ <? _). }
  destruct Hc1 as (Hst1 & Hping1 & Hnonce1).
  assert (Hrun : requestFinished c1 reply t1
    = (set_pingTime (to_int64 (t1 - t0))
         (set_status Ready
            (set_requests (_requests c1 ∖ {[reply_handle reply]}) c1)),
       [DeleteLater (reply_handle reply); EmitConnected])).
  { rewrite requestFinished_success by (done || by rewrite Hst1).
    cbn zeta. rewrite Hst1, Hnonce1, Hping1, Hparse.
    destruct (Z.eqb_spec (qsize (handleResponse (reply_readAll reply))) 1);
      [lia|].
    rewrite (bool_decide_eq_false_2 (handleResponse _ = [])).
    2:{ intros Hnil. rewrite Hnil in Hlen. unfold qsize in Hlen.
        cbn [length] in Hlen. lia. }
    rewrite (bool_decide_eq_false_2 (Connecting = Ready)) by done.
    by rewrite bool_decide_eq_true_2. }
  assert (Hzero : TimeMs 0 = 0) by done.
  unfold pingTime, isConnected. subst c2. rewrite Hrun, Hc, Hst1.
  cbn [fst snd _status _pingTime set_pingTime set_status].
  rewrite (bool_decide_eq_false_2 (Connecting = Ready)) by done.
  rewrite (bool_decide_eq_true_2 (Ready = Ready)) by done.
  repeat split; try done.
  unfold to_int64. apply to_signed_small; [lia|].
  change (2 ^ (64 - 1)) with (2 ^ 63). lia.
Qed.

(** ** The labels *)

(** X16: [transport] names the transport of a connected connection only,
    and never says IPv4.  It is empty exactly when the connection is not
    connected; connected, it is [HTTP/IPv6] for an address [is_ipv6] accepts,
    where it agrees with [tag], and plain [HTTP] for any other address,
    where [tag] is [HTTP/IPv4]. *)
Theorem transport_and_tag (c : HttpConnection) :
  (transport c = "" <-> isConnected c = false)
  /\ (isConnected c = true -> is_ipv6 (_address c) = true ->
      transport c = "HTTP/IPv6" /\ tag c = "HTTP/IPv6")
  /\ (isConnected c = true -> is_ipv6 (_address c) = false ->
      transport c = "HTTP" /\ tag c = "HTTP/IPv4")
  /\ (tag c = "HTTP/IPv6" \/ tag c = "HTTP/IPv4").
Proof.
  unfold transport, tag.
  destruct (isConnected c), (is_ipv6 (_address c)); cbn [negb];
    repeat split; try done; auto.
Qed.

(** ** Addresses that hold place markers *)

Lemma append_length (s t : string) :
  String.length (s +:+ t) = (String.length s + String.length t)%nat.
Proof.
  induction s as [|c s IH]; [done|].
  rewrite append_cons. cbn [String.length]. by rewrite IH.
Qed.

Lemma append_inj_length (s1 s2 t1 t2 : string) :
  String.length t1 = String.length t2 ->
  s1 +:+ t1 = s2 +:+ t2 -> s1 = s2 /\ t1 = t2.
Proof.
  intros Hlen. revert s2. induction s1 as [|c s1 IH]; intros s2 Heq.
  - destruct s2 as [|d s2]; [done|]. rewrite append_nil_l in Heq.
    apply (f_equal String.length) in Heq.
    rewrite append_length in Heq. cbn [String.length] in Heq. lia.
  - destruct s2 as [|d s2].
    + rewrite append_nil_l in Heq. apply (f_equal String.length) in Heq.
      rewrite append_length in Heq. cbn [String.length] in Heq. lia.
    + rewrite !append_cons in Heq. injection Heq as -> Heq.
      destruct (IH _ Heq) as [-> ->]. done.
Qed.

Lemma count_char_append c (s t : string) :
  count_char c (s +:+ t) = (count_char c s + count_char c t)%nat.
Proof.
  induction s as [|d s IH]; [done|].
  rewrite append_cons. cbn [count_char]. rewrite IH. lia.
Qed.

(** Replacing markers by text without ['%'] never adds a ['%']. *)
Lemma count_replace_escapes_le n a (s : string) :
  count_char "%" a = 0%nat -> forall skip,
  (count_char "%" (replace_escapes n a skip s) <= count_char "%" s)%nat.
Proof.
  intros Ha. induction s as [|c s IH]; intros skip; [done|].
  cbn [replace_escapes count_char]. destruct skip as [|k].
  - destruct (Ascii.eqb c "%") eqn:Hc.
    + destruct (escape_at s) as [[m len]|].
      * destruct (m =? n)%nat.
        -- rewrite count_char_append, Ha. specialize (IH len). lia.
        -- cbn [count_char]. rewrite Hc. specialize (IH 0%nat). lia.
      * cbn [count_char]. rewrite Hc. specialize (IH 0%nat). lia.
    + cbn [count_char]. rewrite Hc. specialize (IH 0%nat). lia.
  - specialize (IH k). lia.
Qed.

(** Replacing the lowest marker by such text takes at least one away. *)
Lemma count_replace_escapes_lt n a (s : string) :
  count_char "%" a = 0%nat -> min_escape s = Some n ->
  (count_char "%" (replace_escapes n a 0 s) < count_char "%" s)%nat.
Proof.
  intros Ha. induction s as [|c s IH]; [done|].
  cbn [min_escape replace_escapes count_char].
  destruct (Ascii.eqb c "%") eqn:Hc.
  - destruct (escape_at s) as [[m len]|].
    + intros [= Hmin]. destruct (Nat.eqb_spec m n) as [-> | Hne].
      * rewrite count_char_append, Ha.
        pose proof (count_replace_escapes_le n a s Ha len). lia.
      * cbn [count_char]. rewrite Hc.
        destruct (min_escape s) as [k|]; cbn [option_min] in Hmin; [|lia].
        assert (k = n) as -> by lia. specialize (IH eq_refl). lia.
    + intros Hmin. cbn [count_char]. rewrite Hc. specialize (IH Hmin). lia.
  - intros Hmin. cbn [count_char]. rewrite Hc. specialize (IH Hmin). lia.
Qed.

(** The second [arg] of [url] when the address holds a marker numbered [m],
    2 or lower: it is the address's marker that is replaced. *)
Lemma arg_port_low_marker (address tail : string) m :
  min_escape address = Some m -> (m <= 2)%nat -> closes_marker tail ->
  min_escape tail = Some 2%nat ->
  arg_int (address +:+ tail) kForceHttpPort
  = replace_escapes m (pretty kForceHttpPort) 0 address
    +:+ replace_escapes m (pretty kForceHttpPort) 0 tail.
Proof.
  intros Hmin Hm Htail Htmin. unfold arg_int, arg.
  rewrite min_escape_app, Hmin, Htmin by done. cbn [option_least option_min].
  replace (Nat.min m 2) with m by lia.
  by rewrite replace_escapes_app by (done || lia).
Qed.

Lemma url_low_marker (c : HttpConnection) m :
  min_escape (_address c) = Some m -> (m <= 2)%nat ->
  url c <> spec_url (_address c).
Proof.
  intros Hmin Hm. unfold url, spec_url.
  assert (Hsome : forall tail, closes_marker tail ->
    min_escape tail = Some 2%nat -> min_escape (_address c +:+ tail) <> None).
  { intros tail Ht Htmin. by rewrite min_escape_app, Hmin by done. }
  assert (Hport : count_char "%" (pretty kForceHttpPort) = 0%nat) by done.
  pose proof (count_replace_escapes_lt m (pretty kForceHttpPort)
                (_address c) Hport Hmin) as Hlt.
  assert (Hdiff : forall tail filled,
    closes_marker tail -> min_escape tail = Some 2%nat ->
    replace_escapes 2 (pretty kForceHttpPort) 0 tail = filled ->
    (forall k, (k < 2)%nat ->
       replace_escapes k (pretty kForceHttpPort) 0 tail = tail) ->
    String.length tail = String.length filled -> tail <> filled ->
    arg_int (_address c +:+ tail) kForceHttpPort <> _address c +:+ filled).
  { intros tail filled Ht Htmin Hfill Hkeep Hlen Hne.
    rewrite (arg_port_low_marker _ _ m) by done.
    destruct (decide (m = 2%nat)) as [-> | Hlow].
    - rewrite Hfill. intros [Heq _]%append_inj_length; [|done].
      rewrite Heq in Hlt. lia.
    - rewrite Hkeep by lia. by intros [_ Heq]%append_inj_length. }
  destruct (is_ipv6 (_address c)).
  - change (arg "http://[%1]:%2/api" (_address c))
      with ("http://[" +:+ _address c +:+ "]:%2/api").
    rewrite !append_cons, append_nil_l.
    rewrite !arg_int_plain_prefix by (done || by apply Hsome).
    intros Heq. simplify_eq. revert Heq. apply Hdiff; try done.
    intros k Hk. by destruct k as [|[|k]]; [..|lia].
  - change (arg "http://%1:%2/api" (_address c))
      with ("http://" +:+ _address c +:+ ":%2/api").
    rewrite !append_cons, append_nil_l.
    rewrite !arg_int_plain_prefix by (done || by apply Hsome).
    intros Heq. simplify_eq. revert Heq. apply Hdiff; try done.
    intros k Hk. by destruct k as [|[|k]]; [..|lia].
Qed.

(** X17: the URL is the plain one exactly for addresses free of low
    markers.  [url] gives [http://address:80/api], with brackets around an
    address [is_ipv6] accepts, if and only if the address holds no place
    marker numbered 2 or lower: any such marker is replaced by the second
    [arg] in place of, or along with, the pattern's [%2]. *)
Theorem url_plain_iff_no_low_marker (c : HttpConnection) :
  url c = spec_url (_address c) <-> no_low_marker (_address c).
Proof.
  split; [|apply url_spec_url].
  intros Heq. unfold no_low_marker.
  destruct (min_escape (_address c)) as [m|] eqn:Hmin; [|done].
  cbn [above]. destruct (le_lt_dec m 2) as [Hm | Hm]; [|done].
  by destruct (url_low_marker c m Hmin Hm).
Qed.

(** ** Where tracked replies come from, and where they go *)

Lemma step_requests_source (c : HttpConnection) (op : Op) (h : handle) :
  h ∈ _requests (fst (step c op)) ->
  h ∈ _requests c
  \/ exists target len type body,
       Post target len type body h ∈ snd (step c op).
Proof.
  destruct op as [address port secret dcId now reply | buffer reply
                 | reply now | | ]; cbn [step].
  - unfold connectToServer, sendData. cbn [_status set_pingTime set_address].
    case_bool_decide; [by left|]. destruct (_ <? _); [by left|].
    cbn [fst snd _requests set_requests set_pingTime set_address].
    intros [->%elem_of_singleton | Hin]%elem_of_union; [|by left].
    right. eexists _, _, _, _. apply elem_of_cons. right.
    by apply list_elem_of_singleton.
  - unfold sendData. case_bool_decide; [by left|].
    destruct (_ <? _); [by left|]. cbn [fst snd _requests set_requests].
    intros [->%elem_of_singleton | Hin]%elem_of_union; [|by left].
    right. eexists _, _, _, _. by apply list_elem_of_singleton.
  - destruct (decide (_status c = Finished)) as [Hf | Hst].
    + unfold requestFinished. rewrite bool_decide_eq_true_2 by done.
      by left.
    + rewrite requestFinished_requests by done.
      intros [Hin _]%elem_of_difference. by left.
  - unfold disconnectFromServer. case_bool_decide; [by left|].
    cbn [fst _requests set_requests]. by intros ?%not_elem_of_empty.
  - by left.
Qed.

(** X18: every tracked reply came from a post.  After any sequence of calls
    a handle in the tracked set was in it before the calls, or is the reply
    of a request one of the calls posted. *)
Theorem run_requests_source (c : HttpConnection) (ops : list Op) (h : handle) :
  h ∈ _requests (fst (run c ops)) ->
  h ∈ _requests c
  \/ exists target len type body,
       Post target len type body h ∈ snd (run c ops).
Proof.
  revert c. induction ops as [|op rest IH]; intros c Hin; [by left|].
  rewrite run_cons in *. cbn [fst snd] in *.
  destruct (IH _ Hin) as [Hbefore | (target & len & type & body & Hpost)].
  - destruct (step_requests_source c op h Hbefore)
      as [Hc | (target & len & type & body & Hpost)]; [by left|].
    right. exists target, len, type, body. apply elem_of_app. by left.
  - right. exists target, len, type, body. apply elem_of_app. by right.
Qed.

(** X19: a reply aborted by the teardown is not touched again.  When
    [disconnectFromServer] is followed by any calls, late completions of the
    aborted replies among them, each reply tracked at the teardown is
    aborted exactly once and released exactly once over the whole run, and
    no signal is emitted. *)
Theorem teardown_then_late_calls (c : HttpConnection) (late : list Op)
    (h : handle) :
  _status c <> Finished ->
  let t := snd (run c (OpDisconnectFromServer :: late)) in
  count_events (is_abort_of h) t
  = (if bool_decide (h ∈ _requests c) then 1 else 0)%nat
  /\ count_events (is_deleteLater_of h) t
     = (if bool_decide (h ∈ _requests c) then 1 else 0)%nat
  /\ count_events is_signal t = 0%nat
  /\ count_events is_post t = 0%nat.
Proof.
  intros Hst t. subst t. rewrite run_cons. cbn [step snd fst].
  destruct (run_finished late (fst (disconnectFromServer c))
              (disconnectFromServer_status c)) as (_ & _ & _ & Hquiet).
  rewrite !count_events_app.
  rewrite !(count_events_quiet _ _ eq_refl eq_refl Hquiet), !Nat.add_0_r.
  unfold disconnectFromServer. rewrite bool_decide_eq_false_2 by done.
  cbn [snd]. rewrite !count_events_app.
  rewrite count_abort_teardown, count_deleteLater_teardown
    by apply NoDup_elements.
  rewrite !count_teardown_none by done.
  assert (Hel : bool_decide (h ∈ elements (_requests c))
                = bool_decide (h ∈ _requests c))
    by apply bool_decide_ext, elem_of_elements.
  rewrite Hel. cbn. repeat split; lia.
Qed.

End Further.

(** ** Further statements at concrete inputs *)

Lemma handleResponse_bytes_of_buffer_witness :
  Forall int32_range [1; -2; 3]
  /\ handleResponse (bytes_of_buffer [1; -2; 3]) = [1; -2; 3].
Proof.
  assert (Hrange : Forall int32_range [1; -2; 3])
    by (repeat constructor; by vm_compute).
  split; [exact Hrange|].
  apply (handleResponse_bytes_of_buffer [1; -2; 3] Hrange). by vm_compute.
Defined.

Lemma sendData_body_decodes_witness :
  _status sample_ready <> Finished
  /\ Forall int32_range [1; 2]
  /\ exists body,
       snd (@sendData sample_connection sample_qthelp sample_ready
              (0 :: 0 :: [1; 2] ++ [3]) 9%positive)
       = [Post (@url sample_qthelp sample_ready) (4 * qsize [1; 2])
               "application/x-www-form-urlencoded" body 9%positive]
       /\ handleResponse body = [1; 2].
Proof.
  assert (Hrange : Forall int32_range [1; 2])
    by (repeat constructor; by vm_compute).
  split; [discriminate|]. split; [exact Hrange|].
  apply (@sendData_body_decodes sample_connection sample_qthelp sample_ready
           0 0 3 [1; 2] 9%positive);
    [discriminate | exact Hrange | by vm_compute | by vm_compute].
Defined.

Lemma requestFinished_delivers_frame_witness :
  _status sample_ready = Ready
  /\ reply_error reply_nonce_7 = NoError
  /\ _receivedQueue (fst (@requestFinished sample_connection sample_ready
                            reply_nonce_7 50))
     = _receivedQueue sample_ready
       ++ [handleResponse (reply_readAll reply_nonce_7)]
  /\ snd (@requestFinished sample_connection sample_ready reply_nonce_7 50)
     = [DeleteLater 1%positive; EmitReceivedData].
Proof.
  split; [reflexivity|]. split; [reflexivity|].
  destruct (@requestFinished_delivers_frame sample_connection sample_ready
              reply_nonce_7 50) as (Hq & _ & _ & Hev & _);
    [reflexivity | reflexivity | by vm_compute | by vm_compute |].
  split; [exact Hq | exact Hev].
Defined.

Lemma requestFinished_success_error_codes_witness :
  reply_error reply_three_bytes = NoError
  /\ @requestFinished sample_connection sample_ready reply_three_bytes 50
     = (set_requests (_requests sample_ready ∖ {[2%positive]}) sample_ready,
        [DeleteLater 2%positive; EmitError (-500)]).
Proof.
  split; [reflexivity|].
  destruct (@requestFinished_success_error_codes sample_connection
              sample_ready reply_three_bytes 50) as [Hbad _];
    [reflexivity|].
  apply Hbad; [discriminate | discriminate | right; by vm_compute].
Defined.

Lemma requestFinished_empty_response_witness :
  _status sample_connecting <> Finished
  /\ reply_readAll reply_empty = []
  /\ count_events is_signal
       (snd (@requestFinished sample_connection sample_connecting
               reply_empty 1040)) = 0%nat.
Proof.
  split; [discriminate|]. split; [reflexivity|].
  apply (@requestFinished_empty_response sample_connection sample_connecting
           reply_empty 1040); [discriminate | reflexivity | reflexivity].
Defined.

Lemma requestFinished_untracks_exactly_witness :
  finished_tracks_nothing sample_ready
  /\ (reply_handle reply_404
      ∉ _requests (fst (@requestFinished sample_connection sample_ready
                          reply_404 50))).
Proof.
  assert (Hinv : finished_tracks_nothing sample_ready)
    by (intros Hf; discriminate Hf).
  split; [exact Hinv|].
  apply (@requestFinished_untracks_exactly sample_connection sample_ready
           reply_404 50 Hinv).
Defined.

Lemma sendData_then_requestFinished_witness :
  _status sample_connecting <> Finished
  /\ (reply_handle reply_timeout ∉ _requests sample_connecting)
  /\ _requests
       (fst (@requestFinished sample_connection
               (fst (@sendData sample_connection sample_qthelp
                       sample_connecting [0; 0; 1; 2; 3]
                       (reply_handle reply_timeout)))
               reply_timeout 1040))
     = _requests sample_connecting.
Proof.
  assert (Hnew : reply_handle reply_timeout ∉ _requests sample_connecting).
  { apply (bool_decide_unpack _). by vm_compute. }
  split; [discriminate|]. split; [exact Hnew|].
  apply (@sendData_then_requestFinished sample_connection sample_qthelp
           sample_connecting [0; 0; 1; 2; 3] reply_timeout 1040);
    [discriminate | by vm_compute | exact Hnew].
Defined.

Lemma run_finished_is_silent_witness :
  _status sample_finished = Finished
  /\ count_events is_post
       (snd (@run sample_connection sample_qthelp sample_finished
               [OpSendData [0; 0; 1; 2; 3] 4%positive;
                OpRequestFinished reply_nonce_7 60;
                OpConnectToServer "203.0.113.5" 443 [] 2 70 5%positive]))
     = 0%nat.
Proof.
  split; [reflexivity|].
  apply (@run_finished_is_silent sample_connection sample_qthelp
           sample_finished). reflexivity.
Defined.

Lemma run_ready_needs_nonce_witness :
  _status sample_connecting = Connecting
  /\ exists reply now,
       In (OpRequestFinished reply now)
          [OpSendData [0; 0; 1] 4%positive;
           OpRequestFinished reply_nonce_7 1040]
       /\ reply_error reply = NoError
       /\ @readPQFakeReply sample_connection
            (handleResponse (reply_readAll reply))
          = Some (_checkNonce sample_connecting).
Proof.
  split; [reflexivity|].
  apply (@run_ready_needs_nonce sample_connection sample_qthelp
           sample_connecting); [reflexivity | by vm_compute].
Defined.

Lemma connect_then_handshake_witness :
  _status sample_connecting = Connecting
  /\ pingTime
       (fst (@requestFinished sample_connection
               (fst (@connectToServer sample_connection sample_qthelp
                       sample_connecting "203.0.113.5" 443 [] 2 1000
                       3%positive))
               reply_nonce_7 1040))
     = 1040 - 1000.
Proof.
  split; [reflexivity|].
  apply (@connect_then_handshake sample_connection sample_qthelp
           sample_connecting "203.0.113.5" 443 [] 2 1000 1040 3%positive
           reply_nonce_7);
    [reflexivity | reflexivity | by vm_compute | by vm_compute
    | by vm_compute | by vm_compute].
Defined.

Lemma run_requests_source_witness :
  (4%positive
   ∈ _requests (fst (@run sample_connection sample_qthelp sample_connecting
                       [OpSendData [0; 0; 1; 2; 3] 4%positive])))
  /\ (4%positive ∈ _requests sample_connecting
      \/ exists target len type body,
           Post target len type body 4%positive
           ∈ snd (@run sample_connection sample_qthelp sample_connecting
                    [OpSendData [0; 0; 1; 2; 3] 4%positive])).
Proof.
  assert (Hin : 4%positive
    ∈ _requests (fst (@run sample_connection sample_qthelp sample_connecting
                        [OpSendData [0; 0; 1; 2; 3] 4%positive]))).
  { apply (bool_decide_unpack _). by vm_compute. }
  split; [exact Hin|].
  apply (@run_requests_source sample_connection sample_qthelp
           sample_connecting _ 4%positive Hin).
Defined.

Lemma teardown_then_late_calls_witness :
  _status sample_ready <> Finished
  /\ count_events (is_deleteLater_of 1%positive)
       (snd (@run sample_connection sample_qthelp sample_ready
               [OpDisconnectFromServer; OpRequestFinished reply_404 60]))
     = 1%nat.
Proof.
  split; [discriminate|].
  apply (@teardown_then_late_calls sample_connection sample_qthelp
           sample_ready [OpRequestFinished reply_404 60] 1%positive).
  discriminate.
Defined.
